(** * Sia: version strings and block acceptance

    A shallow embedding of the two Go packages of the repository:

    - [build]: the version-string utility ([IsVersion]);
    - [consensus]: header validation ([validateHeader]), tree insertion
      ([addBlockToTree]) and the acceptance orchestrator ([AcceptBlock]).

    Go strings and byte slices are Rocq strings (one [ascii] per byte), the
    bolt database is a finite map from bucket names to buckets, a bucket is a
    finite map from keys to values, and the DoS cache is a finite set. *)

From Stdlib Require Import ZArith Lia List Bool Ascii String.
From stdpp Require Import base decidable option list gmap strings pretty.

Import ListNotations.
Local Open Scope string_scope.
Local Open Scope Z_scope.

(* ===================================================================== *)
(** * Package [build] *)
(* ===================================================================== *)

Module build.

(** ** The two library functions [IsVersion] calls

    Both belong to the Go standard library; they are modelled from their
    documented behaviour. *)

(** [strings.Split(s, sep)] for a one-byte separator: the substrings between
    consecutive separators.  The result is never empty; splitting the empty
    string gives one empty component. *)
Fixpoint Split (s : string) (sep : ascii) : list string :=
  match s with
  | EmptyString => [EmptyString]
  | String c rest =>
      if Ascii.eqb c sep then EmptyString :: Split rest sep
      else match Split rest sep with
           | hd :: tl => String c hd :: tl
           | [] => [String c EmptyString]
           end
  end.

(** The width of Go's [int] on the 64-bit platforms siad is built for. *)
Definition intSize : Z := 64.
Definition maxInt : Z := 2 ^ (intSize - 1) - 1.
Definition minInt : Z := - 2 ^ (intSize - 1).

Definition digitValue (c : ascii) : option Z :=
  let n := Z.of_nat (nat_of_ascii c) in
  if (48 <=? n) && (n <=? 57) then Some (n - 48) else None.

(** The digits of [s] read in base ten on top of [acc]; [None] at the first
    byte that is not a digit. *)
Fixpoint parseDigits (acc : Z) (s : string) : option Z :=
  match s with
  | EmptyString => Some acc
  | String c rest =>
      match digitValue c with
      | Some d => parseDigits (acc * 10 + d) rest
      | None => None
      end
  end.

(** [strconv.Atoi]: an optional sign, then at least one decimal digit and
    nothing else; the value has to fit an [int].  [None] stands for the
    non-nil error (syntax or range). *)
Definition Atoi (s : string) : option Z :=
  let '(neg, body) :=
    match s with
    | String "-" rest => (true, rest)
    | String "+" rest => (false, rest)
    | _ => (false, s)
    end in
  match body with
  | EmptyString => None
  | _ =>
      match parseDigits 0 body with
      | Some n =>
          let v := if neg then - n else n in
          if (minInt <=? v) && (v <=? maxInt) then Some v else None
      | None => None
      end
  end.

(** ** [IsVersion] *)

(** The [for ... range] loop of [IsVersion]: leave with [false] at the first
    component [Atoi] rejects, [true] when the components are used up. *)
Fixpoint IsVersion_loop (components : list string) : bool :=
  match components with
  | [] => true
  | n :: rest =>
      match Atoi n with
      | None => false
      | Some _ => IsVersion_loop rest
      end
  end.

Definition IsVersion (str : string) : bool :=
  IsVersion_loop (Split str ".").

(** What the loop is meant to decide: every component parses. *)
Definition all_components_parse (str : string) : Prop :=
  Forall (fun n => exists k, Atoi n = Some k) (Split str ".").

(** [Version] is the current version of siad. *)
Definition Version : string := "0.4.0".

(** ** [min] *)

(** [min] on Go's [int]. *)
Definition min (a b : Z) : Z := if a <? b then a else b.

(** ** The integer [strconv.Atoi] returns

    [VersionCmp] drops the error of [Atoi] and uses the integer, so the
    integer returned beside an error matters: 0 beside a syntax error, the
    nearest bound of [int] beside a range error.  [Atoi(s)] is
    [ParseInt(s, 10, 0)], which reads the digits with [ParseUint]. *)

Inductive numError := ErrSyntax | ErrRange.

Definition maxUint64 : Z := 2 ^ 64 - 1.

(** The smallest [n] for which [n * 10] overflows a [uint64]. *)
Definition cutoff64 : Z := maxUint64 / 10 + 1.

(** The loop of [ParseUint] in base ten: it leaves at the first byte that is
    not a digit, or as soon as the number no longer fits 64 bits. *)
Fixpoint ParseUint_loop (n : Z) (s : string) : Z * option numError :=
  match s with
  | EmptyString => (n, None)
  | String c rest =>
      match digitValue c with
      | None => (0, Some ErrSyntax)
      | Some d =>
          if cutoff64 <=? n then (maxUint64, Some ErrRange)
          else
            let n1 := n * 10 + d in
            if maxUint64 <? n1 then (maxUint64, Some ErrRange)
            else ParseUint_loop n1 rest
      end
  end.

Definition ParseUint (s : string) : Z * option numError :=
  match s with
  | EmptyString => (0, Some ErrSyntax)
  | _ => ParseUint_loop 0 s
  end.

Definition ParseInt (s : string) : Z * option numError :=
  match s with
  | EmptyString => (0, Some ErrSyntax)
  | String c rest =>
      let '(neg, body) :=
        match c with
        | "+"%char => (false, rest)
        | "-"%char => (true, rest)
        | _ => (false, s)
        end in
      match ParseUint body with
      | (_, Some ErrSyntax) => (0, Some ErrSyntax)
      | (un, _) =>
          let cutoff := 2 ^ (intSize - 1) in
          if negb neg && (cutoff <=? un) then (cutoff - 1, Some ErrRange)
          else if neg && (cutoff <? un) then (- cutoff, Some ErrRange)
          else (if neg then - un else un, None)
      end
  end.

(** The first result of [strconv.Atoi], whatever the second. *)
Definition AtoiInt (s : string) : Z := fst (ParseInt s).

(** ** [VersionCmp] *)

(** The [for] loop of [VersionCmp] over the indices it visits: [Some] of
    what an early [return] gives, [None] when the loop runs to its end. *)
Fixpoint VersionCmp_loop (aNums bNums : list string) (indices : list nat)
  : option Z :=
  match indices with
  | [] => None
  | i :: rest =>
      let aInt := AtoiInt (nth i aNums EmptyString) in
      let bInt := AtoiInt (nth i bNums EmptyString) in
      if aInt <? bInt then Some (-1)
      else if aInt >? bInt then Some 1
      else VersionCmp_loop aNums bNums rest
  end.

(** [len(s)] as a Go [int]. *)
Definition len {A} (l : list A) : Z := Z.of_nat (length l).

Definition VersionCmp (a b : string) : Z :=
  let aNums := Split a "." in
  let bNums := Split b "." in
  match VersionCmp_loop aNums bNums
          (seq 0 (Z.to_nat (min (len aNums) (len bNums)))) with
  | Some r => r
  | None =>
      (* all shared digits are equal, but lengths may not be equal *)
      if len aNums <? len bNums then -1
      else if len aNums >? len bNums then 1
      else 0
  end.

(** The numbers [VersionCmp] reads off a version string. *)
Definition versionNumbers (str : string) : list Z :=
  map AtoiInt (Split str ".").

(** The order [VersionCmp] is meant to decide: the first differing number
    decides, and of two lists one of which starts the other the shorter is
    the smaller. *)
Fixpoint lexCompare (xs ys : list Z) : Z :=
  match xs, ys with
  | [], [] => 0
  | [], _ :: _ => -1
  | _ :: _, [] => 1
  | x :: xs', y :: ys' =>
      if x <? y then -1
      else if x >? y then 1
      else lexCompare xs' ys'
  end.

End build.

(* ===================================================================== *)
(** * Package [consensus] *)
(* ===================================================================== *)

Module consensus.

(** ** Data *)

(** [types.BlockID] and [types.Target] are 32-byte arrays; a key or a value
    of the database is a byte slice. *)
Definition BlockID := string.
Definition Target := string.

(** [types.Timestamp] and [types.BlockHeight] are [uint64]; [time.Duration]
    is [int64]. *)
Definition uint64 (z : Z) : Z := z mod 2 ^ 64.
Definition int64 (z : Z) : Z := (z + 2 ^ 63) mod 2 ^ 64 - 2 ^ 63.

(** [types.Block], with the transactions and miner payouts folded into
    [Body]: acceptance reads [ParentID], [Timestamp] and the block's ID. *)
Record Block := {
  ParentID : BlockID;
  Nonce : string;
  Timestamp : Z;
  Body : string
}.

(** The fields of [processedBlock] this file reads. *)
Record processedBlock := {
  pbBlock : Block;
  Height : Z;
  ChildTarget : Target
}.

Record changeEntry := {
  revertedBlocks : list BlockID;
  appliedBlocks : list BlockID
}.

(** ** Errors *)

(** The package's sentinel errors, the two of package [modules], the
    validator's [errFutureTimestamp], and [errorString] for an error made on
    the spot by [errors.New] (which is equal to no sentinel). *)
Inductive error :=
| errDoSBlock
| errNoBlockMap
| errInconsistentSet
| errOrphan
| ErrBlockKnown
| ErrNonExtendingBlock
| errFutureTimestamp
| errorString (msg : string).

(** [err == errFutureTimestamp] *)
Definition is_errFutureTimestamp (e : error) : bool :=
  match e with errFutureTimestamp => true | _ => false end.

Inductive panicValue :=
| PanicError (e : error)
| PanicString (msg : string).

(** ** The store *)

(** A bolt database: buckets by name, and in a bucket values by key. *)
Abbreviation Bucket := (gmap string string).
Abbreviation DB := (gmap string (gmap string string)).

(** The name of the bucket of processed blocks. *)
Definition BlockMap : string := "BlockMap".

(** ** The consensus set *)

Inductive lockState := Unlocked | Locked | Demoted.

Record ConsensusSet := {
  dosBlocks : gset BlockID;
  db : DB;
  changeLog : list changeEntry;
  mu : lockState
}.

Definition set_db (tx : DB) (cs : ConsensusSet) : ConsensusSet :=
  {| dosBlocks := dosBlocks cs; db := tx;
     changeLog := changeLog cs; mu := mu cs |}.

Definition set_changeLog (l : list changeEntry) (cs : ConsensusSet) : ConsensusSet :=
  {| dosBlocks := dosBlocks cs; db := db cs;
     changeLog := l; mu := mu cs |}.

Definition set_mu (s : lockState) (cs : ConsensusSet) : ConsensusSet :=
  {| dosBlocks := dosBlocks cs; db := db cs;
     changeLog := changeLog cs; mu := s |}.

(** ** What a call does besides changing the consensus set *)

(** The two [go] statements of [AcceptBlock]. *)
Inductive goroutine :=
| GoRetryAcceptBlock (b : Block)
| GoBroadcast (topic : string) (b : Block).

Inductive event :=
| EvBegin (writable : bool)         (* a bolt transaction is opened *)
| EvCommit
| EvRollback
| EvInconsistencyDetected           (* the consistency precheck *)
| EvDoSLookup (id : BlockID)        (* cs.dosBlocks[id] *)
| EvBucket (name : string)          (* tx.Bucket(name) *)
| EvGet (key : string)              (* bucket.Get(key) *)
| EvUnmarshal (bytes : string)
| EvMinimumValidChildTimestamp (parent : processedBlock)
| EvValidateBlock (b : Block) (minTimestamp : Z) (target : Target) (height : Z)
| EvGo (g : goroutine)
| EvUpdateSubscribers (ce : changeEntry).

(** ** Code of the repository that acceptance calls *)

(** The functions and constants below are used by the three functions of
    this file and defined elsewhere in the repository; they are taken as
    they are called.  A pointer to a processed block that may be nil is an
    [option]; a helper that is handed the transaction changes the
    transaction and nothing else. *)
Class Collaborators := {
  (** [build.DEBUG] *)
  DEBUG : bool;
  (** [types.FutureThreshold] *)
  FutureThreshold : Z;
  (** [b.ID()] *)
  ID : Block -> BlockID;
  inconsistencyDetected : DB -> bool;
  (** [cs.marshaler.Unmarshal(bytes, &pb)] *)
  Unmarshal : string -> error + processedBlock;
  (** [cs.blockRuleHelper.minimumValidChildTimestamp(blockMap, &parent)] *)
  minimumValidChildTimestamp : Bucket -> processedBlock -> Z;
  (** [cs.blockValidator.ValidateBlock(b, minTimestamp, target, height)],
      [None] for a nil error *)
  ValidateBlock : Block -> Z -> Target -> Z -> option error;
  getBlockMap : DB -> BlockID -> option processedBlock * option error;
  currentProcessedBlock : DB -> processedBlock;
  (** [cs.newChild(tx, pb, b)]: the transaction afterwards, and the node *)
  newChild : DB -> option processedBlock -> Block -> DB * processedBlock;
  (** [newNode.heavierThan(currentNode)] *)
  heavierThan : processedBlock -> processedBlock -> bool;
  (** [cs.forkBlockchain(tx, newNode)]: the transaction afterwards, the
      reverted and the applied nodes, and the error *)
  forkBlockchain : DB -> processedBlock ->
                   DB * (list processedBlock * list processedBlock * option error)
}.

(** ** A monad for calls on the consensus set

    A call reads and writes the consensus set and leaves a trace of events;
    it returns, fails with a Go error, or panics. *)

Inductive result (A : Type) :=
| Ok (a : A)
| Fail (e : error)
| Panicked (p : panicValue).

Arguments Ok {A} a.
Arguments Fail {A} e.
Arguments Panicked {A} p.

Definition M (A : Type) : Type :=
  ConsensusSet -> result A * ConsensusSet * list event.

Definition ret {A} (a : A) : M A := fun cs => (Ok a, cs, []).

Definition bind {A B} (m : M A) (f : A -> M B) : M B :=
  fun cs =>
    match m cs with
    | (Ok a, cs1, t1) =>
        match f a cs1 with
        | (r, cs2, t2) => (r, cs2, (t1 ++ t2)%list)
        end
    | (Fail e, cs1, t1) => (Fail e, cs1, t1)
    | (Panicked p, cs1, t1) => (Panicked p, cs1, t1)
    end.

Notation "x <- m ;; k" := (bind m (fun x => k))
  (at level 100, m at next level, right associativity).
Notation "m ;;; k" := (bind m (fun _ => k))
  (at level 100, right associativity).

Definition fail {A} (e : error) : M A := fun cs => (Fail e, cs, []).
Definition panic {A} (p : panicValue) : M A := fun cs => (Panicked p, cs, []).
Definition tell (ev : event) : M unit := fun cs => (Ok tt, cs, [ev]).
Definition gets {A} (f : ConsensusSet -> A) : M A := fun cs => (Ok (f cs), cs, []).
Definition modify (f : ConsensusSet -> ConsensusSet) : M unit :=
  fun cs => (Ok tt, f cs, []).

(** [err := f(); if err != nil { ... }]: the error of a call as a value. *)
Definition try {A} (m : M A) : M (error + A) :=
  fun cs =>
    match m cs with
    | (Ok a, cs1, t1) => (Ok (inr a), cs1, t1)
    | (Fail e, cs1, t1) => (Ok (inl e), cs1, t1)
    | (Panicked p, cs1, t1) => (Panicked p, cs1, t1)
    end.

(** [defer cleanup(); body]: [cleanup] runs when [body] is left, however it
    is left, and the outcome is that of [body]. *)
Definition defer {A} (cleanup : M unit) (body : M A) : M A :=
  fun cs =>
    match body cs with
    | (r, cs1, t1) =>
        match cleanup cs1 with
        | (_, cs2, t2) => (r, cs2, (t1 ++ t2)%list)
        end
    end.

(** The lock [cs.mu].  [Lock] returns once the caller holds the lock. *)
Definition Lock : M unit := modify (set_mu Locked).
Definition Unlock : M unit := modify (set_mu Unlocked).
Definition Demote : M unit := modify (set_mu Demoted).
Definition DemotedUnlock : M unit := modify (set_mu Unlocked).

(** [cs.db.View(fn)]: bolt opens a read-only transaction on the database as
    it is, runs [fn] and closes the transaction. *)
Definition View {A} (fn : DB -> M A) : M A :=
  tell (EvBegin false) ;;;
  defer (tell EvRollback) (tx <- gets db ;; fn tx).

(** [cs.db.Update(fn)]: bolt opens a read-write transaction and runs [fn];
    what [fn] wrote is committed when [fn] returns nil and discarded
    otherwise. *)
Definition Update {A} (fn : DB -> result A * DB) : M A :=
  tell (EvBegin true) ;;;
  tx <- gets db ;;
  match fn tx with
  | (Ok a, tx') => modify (set_db tx') ;;; tell EvCommit ;;; ret a
  | (Fail e, _) => tell EvRollback ;;; fail e
  | (Panicked p, _) => tell EvRollback ;;; panic p
  end.

Section Acceptance.

Context {C : Collaborators}.

(** ** [validateHeader] *)

Definition validateHeader (tx : DB) (b : Block) : M unit :=
  let id := ID b in
  dos <- gets dosBlocks ;;
  tell (EvDoSLookup id) ;;;
  if decide (id ∈ dos) then fail errDoSBlock else
  tell (EvBucket BlockMap) ;;;
  match tx !! BlockMap with
  | None => fail errNoBlockMap
  | Some blockMap =>
      tell (EvGet id) ;;;
      match blockMap !! id with
      | Some _ => fail ErrBlockKnown
      | None =>
          let parentID := ParentID b in
          tell (EvGet parentID) ;;;
          match blockMap !! parentID with
          | None => fail errOrphan
          | Some parentBytes =>
              tell (EvUnmarshal parentBytes) ;;;
              match Unmarshal parentBytes with
              | inl err => fail err
              | inr parent =>
                  tell (EvMinimumValidChildTimestamp parent) ;;;
                  let minTimestamp := minimumValidChildTimestamp blockMap parent in
                  tell (EvValidateBlock b minTimestamp (ChildTarget parent)
                          (uint64 (Height parent + 1))) ;;;
                  match ValidateBlock b minTimestamp (ChildTarget parent)
                          (uint64 (Height parent + 1)) with
                  | Some err => fail err
                  | None => ret tt
                  end
              end
          end
      end
  end.

(** ** [addBlockToTree] *)

(** The function handed to [cs.db.Update]: on a nil error, the flag
    [nonExtending] and the two lists it has assigned. *)
Definition addBlockToTree_fn (b : Block) (tx : DB)
  : result (bool * list processedBlock * list processedBlock) * DB :=
  let '(pb, err) := getBlockMap tx (ParentID b) in
  match (if DEBUG then err else None) with
  | Some e => (Panicked (PanicError e), tx)
  | None =>
      let currentNode := currentProcessedBlock tx in
      let '(tx1, newNode) := newChild tx pb b in
      let nonExtending := negb (heavierThan newNode currentNode) in
      if nonExtending then (Ok (true, [], []), tx1)
      else
        match forkBlockchain tx1 newNode with
        | (tx2, (reverted, applied, None)) => (Ok (false, reverted, applied), tx2)
        | (tx2, (_, _, Some e)) => (Fail e, tx2)
        end
  end.

Definition addBlockToTree (b : Block)
  : M (list processedBlock * list processedBlock) :=
  r <- try (Update (addBlockToTree_fn b)) ;;
  match r with
  | inl err => fail err
  | inr (nonExtending, reverted, applied) =>
      if (nonExtending : bool) then fail ErrNonExtendingBlock
      else ret (reverted, applied)
  end.

(** ** [AcceptBlock] *)

Definition blockIDs (l : list processedBlock) : list BlockID :=
  map (fun pb => ID (pbBlock pb)) l.

Definition AcceptBlock (b : Block) : M unit :=
  Lock ;;;
  err <- try (View (fun tx =>
    (* Do not accept a block if the database is inconsistent. *)
    tell EvInconsistencyDetected ;;;
    if inconsistencyDetected tx
    then fail (errorString "inconsistent database")
    else
      err <- try (validateHeader tx b) ;;
      match err with
      | inl e =>
          (if is_errFutureTimestamp e
           then tell (EvGo (GoRetryAcceptBlock b)) else ret tt) ;;;
          fail e
      | inr _ => ret tt
      end)) ;;
  match err with
  | inl e => Unlock ;;; fail e
  | inr _ =>
      r <- try (addBlockToTree b) ;;
      match r with
      | inl e => Unlock ;;; fail e
      | inr (reverted, applied) =>
          (* Log the changes in the change log. *)
          let ce := {| revertedBlocks := blockIDs reverted;
                       appliedBlocks := blockIDs applied |} in
          modify (fun cs => set_changeLog (changeLog cs ++ [ce])%list cs) ;;;
          (* Demote the lock and send the update to the subscribers. *)
          Demote ;;;
          defer DemotedUnlock
            ((if (0 <? length applied)%nat
              then tell (EvUpdateSubscribers ce) else ret tt) ;;;
             (* Sanity checks. *)
             (if DEBUG && (length applied =? 0)%nat && negb (length reverted =? 0)%nat
              then panic (PanicString "appliedBlocks and revertedBlocks are mismatched!")
              else ret tt) ;;;
             (* Broadcast the new block to all peers. *)
             tell (EvGo (GoBroadcast "RelayBlock" b)))
      end
  end.

(** ** The deferred retry *)

(** [time.Second], in nanoseconds. *)
Definition Second : Z := 1000000000.

(** The argument of [time.Sleep] in the goroutine of [AcceptBlock], in
    nanoseconds, when [types.CurrentTimestamp()] gives [now]: a [uint64]
    difference converted to [time.Duration] and multiplied by
    [time.Second]. *)
Definition retrySleep (b : Block) (now : Z) : Z :=
  int64 (int64 (uint64 (Timestamp b - uint64 (now + FutureThreshold))) * Second).



End Acceptance.

(** ** Running a sequence of acceptances *)

Section Runs.

Context {C : Collaborators}.

Definition outcome {A} (x : result A * ConsensusSet * list event) : result A :=
  fst (fst x).
Definition final {A} (x : result A * ConsensusSet * list event) : ConsensusSet :=
  snd (fst x).
Definition trace {A} (x : result A * ConsensusSet * list event) : list event :=
  snd x.

(** One call of [AcceptBlock] after the other, each on the consensus set the
    previous one left: the outcomes in order, and the last consensus set. *)
Fixpoint AcceptBlocks (bs : list Block) (cs : ConsensusSet)
  : list (result unit) * ConsensusSet :=
  match bs with
  | [] => ([], cs)
  | b :: rest =>
      let r := AcceptBlock b cs in
      let '(rs, cs') := AcceptBlocks rest (final r) in
      (outcome r :: rs, cs')
  end.

(** The operations of [validateHeader] in the order of its text. *)
Definition header_checks (blockMap : Bucket) (parentBytes : string)
    (parent : processedBlock) (b : Block) : list event :=
  [ EvDoSLookup (ID b);
    EvBucket BlockMap;
    EvGet (ID b);
    EvGet (ParentID b);
    EvUnmarshal parentBytes;
    EvMinimumValidChildTimestamp parent;
    EvValidateBlock b (minimumValidChildTimestamp blockMap parent)
      (ChildTarget parent) (uint64 (Height parent + 1)) ].

Definition is_begin (writable : bool) (ev : event) : bool :=
  match ev with EvBegin w => Bool.eqb w writable | _ => false end.

Definition is_update_subscribers (ev : event) : bool :=
  match ev with EvUpdateSubscribers _ => true | _ => false end.

Definition is_go (ev : event) : bool :=
  match ev with EvGo _ => true | _ => false end.

(** The block stored under [id], if the store has one. *)
Definition storedBlock (tx : DB) (id : BlockID) : option string :=
  match tx !! BlockMap with
  | Some blockMap => blockMap !! id
  | None => None
  end.

(** A fork resolver that never reverts without applying. *)
Definition fork_symmetric : Prop :=
  forall tx newNode tx' reverted applied,
    forkBlockchain tx newNode = (tx', (reverted, applied, None)) ->
    applied = [] -> reverted = [].

(** The error [AcceptBlock] makes when the precheck fails. *)
Definition errInconsistentDatabase : error := errorString "inconsistent database".

(** The events of the verification phase up to the end of [validateHeader]. *)
Definition verification_trace (b : Block) (cs : ConsensusSet) : list event :=
  ([EvBegin false; EvInconsistencyDetected] ++ trace (validateHeader (db cs) b cs))%list.


(** What [AcceptBlock] does once [validateHeader] has returned nil, by the
    outcome of the function handed to [Update]. *)
Definition insertion_run (b : Block) (cs : ConsensusSet)
  : result unit * ConsensusSet * list event :=
  let pre := (verification_trace b cs ++ [EvRollback])%list in
  match addBlockToTree_fn b (db cs) with
  | (Panicked p, _) =>
      (Panicked p, set_mu Locked cs, (pre ++ [EvBegin true; EvRollback])%list)
  | (Fail e, _) =>
      (Fail e, set_mu Unlocked cs, (pre ++ [EvBegin true; EvRollback])%list)
  | (Ok (true, _, _), tx1) =>
      (Fail ErrNonExtendingBlock, set_mu Unlocked (set_db tx1 cs),
       (pre ++ [EvBegin true; EvCommit])%list)
  | (Ok (false, reverted, applied), tx2) =>
      let ce := {| revertedBlocks := blockIDs reverted;
                   appliedBlocks := blockIDs applied |} in
      let cs' := set_mu Unlocked (set_changeLog (changeLog cs ++ [ce])%list (set_db tx2 cs)) in
      let notified := match applied with [] => [] | _ => [EvUpdateSubscribers ce] end in
      match DEBUG, applied, reverted with
      | true, [], _ :: _ =>
          (Panicked (PanicString "appliedBlocks and revertedBlocks are mismatched!"),
           cs', (pre ++ [EvBegin true; EvCommit] ++ notified)%list)
      | _, _, _ =>
          (Ok tt, cs',
           (pre ++ [EvBegin true; EvCommit] ++ notified ++
            [EvGo (GoBroadcast "RelayBlock" b)])%list)
      end
  end.

(** The events [validateHeader] leaves: reads of the DoS set and of the
    store, and calls of the marshaler, the rule helper and the validator. *)
Definition is_header_event (ev : event) : bool :=
  match ev with
  | EvDoSLookup _ | EvBucket _ | EvGet _ | EvUnmarshal _
  | EvMinimumValidChildTimestamp _ | EvValidateBlock _ _ _ _ => true
  | _ => false
  end.

Definition is_go_retry (ev : event) : bool :=
  match ev with EvGo (GoRetryAcceptBlock _) => true | _ => false end.

Definition is_broadcast (ev : event) : bool :=
  match ev with EvGo (GoBroadcast _ _) => true | _ => false end.

Definition is_begin_any (ev : event) : bool :=
  match ev with EvBegin _ => true | _ => false end.

(** A transaction ends by a commit or by a rollback. *)
Definition is_close (ev : event) : bool :=
  match ev with EvCommit | EvRollback => true | _ => false end.

Definition returned_nil (r : result unit) : bool :=
  match r with Ok _ => true | _ => false end.

Definition has_panicked (r : result unit) : bool :=
  match r with Panicked _ => true | _ => false end.

(** Whether the verification phase of [AcceptBlock] lets the block through
    to [addBlockToTree]. *)
Definition verified (b : Block) (cs : ConsensusSet) : bool :=
  negb (inconsistencyDetected (db cs)) &&
  match outcome (validateHeader (db cs) b cs) with
  | Ok _ => true
  | _ => false
  end.

(** Whether the verification phase ends on [errFutureTimestamp]. *)
Definition deferred (b : Block) (cs : ConsensusSet) : bool :=
  negb (inconsistencyDetected (db cs)) &&
  match outcome (validateHeader (db cs) b cs) with
  | Fail e => is_errFutureTimestamp e
  | _ => false
  end.

End Runs.

(** ** Stand-ins for the code that is not in this file

    A small, executable instance of [Collaborators], used to run the three
    functions on concrete consensus sets. *)

Module mock.

(** The clock of the stand-in validator. *)
Definition now : Z := 1000.

Definition ID (b : Block) : BlockID := Nonce b.

Definition zeroBlock : Block :=
  {| ParentID := ""; Nonce := ""; Timestamp := 0; Body := "" |}.
Definition zeroProcessedBlock : processedBlock :=
  {| pbBlock := zeroBlock; Height := 0; ChildTarget := "" |}.

(** A codec for processed blocks: the six fields, separated by a bar. *)
Definition Marshal (pb : processedBlock) : string :=
  ParentID (pbBlock pb) +:+ "|" +:+ Nonce (pbBlock pb) +:+ "|" +:+
  pretty (Timestamp (pbBlock pb)) +:+ "|" +:+ Body (pbBlock pb) +:+ "|" +:+
  pretty (Height pb) +:+ "|" +:+ ChildTarget pb.

Definition Unmarshal (bytes : string) : error + processedBlock :=
  match build.Split bytes "|" with
  | [parent; nonce; ts; body; height; target] =>
      match build.Atoi ts, build.Atoi height with
      | Some t, Some h =>
          inr {| pbBlock := {| ParentID := parent; Nonce := nonce;
                               Timestamp := t; Body := body |};
                 Height := h; ChildTarget := target |}
      | _, _ => inl (errorString "could not decode")
      end
  | _ => inl (errorString "could not decode")
  end.

(** [bucket.Put(key, value)] on the bucket [name]. *)
Definition put (name key value : string) (tx : DB) : DB :=
  match tx !! name with
  | Some bucket => <[name := <[key := value]> bucket]> tx
  | None => tx
  end.

(** Modelled from the spec: [inconsistencyDetected], the global consistency
    precheck; the store is marked corrupted by a flag in a bucket of its
    own. *)
Definition inconsistencyDetected (tx : DB) : bool :=
  match tx !! "Consistency" with
  | Some bucket => bool_decide (bucket !! "Consistency" = Some "1")
  | None => false
  end.

(** Modelled from the spec: the Block Rule Helper; here a child may not be
    older than its parent. *)
Definition minimumValidChildTimestamp (blockMap : Bucket) (parent : processedBlock) : Z :=
  Timestamp (pbBlock parent).

Definition FutureThreshold : Z := 10800.

(** Modelled from the spec: the Block Validator; it reports
    [errFutureTimestamp] for a timestamp ahead of the clock by more than the
    tolerance window. *)
Definition ValidateBlock (b : Block) (minTimestamp : Z) (target : Target) (height : Z)
  : option error :=
  if Timestamp b <? minTimestamp then Some (errorString "block timestamp is too early")
  else if now + FutureThreshold <? Timestamp b then Some errFutureTimestamp
  else None.

(** Modelled from the spec: [getBlockMap], the processed block stored under
    an ID. *)
Definition getBlockMap (tx : DB) (id : BlockID) : option processedBlock * option error :=
  match tx !! BlockMap with
  | None => (None, Some errNoBlockMap)
  | Some blockMap =>
      match blockMap !! id with
      | None => (None, Some (errorString "item does not exist"))
      | Some bytes =>
          match Unmarshal bytes with
          | inl e => (None, Some e)
          | inr pb => (Some pb, None)
          end
      end
  end.

(** Modelled from the spec: the current pointer, a well-known key holding
    the ID of the current tip. *)
Definition currentProcessedBlock (tx : DB) : processedBlock :=
  match tx !! "BlockPath" with
  | Some path =>
      match path !! "tip" with
      | Some id => default zeroProcessedBlock (fst (getBlockMap tx id))
      | None => zeroProcessedBlock
      end
  | None => zeroProcessedBlock
  end.

(** Modelled from the spec: [newChild], building the child record (height =
    parent height + 1, the parent's target kept) and storing it under the
    block's ID. *)
Definition newChild (tx : DB) (pb : option processedBlock) (b : Block)
  : DB * processedBlock :=
  let parent := default zeroProcessedBlock pb in
  let child := {| pbBlock := b;
                  Height := uint64 (Height parent + 1);
                  ChildTarget := ChildTarget parent |} in
  (put BlockMap (ID b) (Marshal child) tx, child).

(** Modelled from the spec: [heavierThan]; with one target for all blocks
    the weight of a chain is its height. *)
Definition heavierThan (newNode currentNode : processedBlock) : bool :=
  Height currentNode <? Height newNode.

(** The nodes from [pb] up towards genesis, [pb] first. *)
Fixpoint pathToGenesis (fuel : nat) (tx : DB) (pb : processedBlock)
  : list processedBlock :=
  match fuel with
  | O => [pb]
  | S fuel' =>
      match fst (getBlockMap tx (ParentID (pbBlock pb))) with
      | Some parent => pb :: pathToGenesis fuel' tx parent
      | None => [pb]
      end
  end.

Definition onPath (path : list processedBlock) (pb : processedBlock) : bool :=
  existsb (fun q => String.eqb (ID (pbBlock q)) (ID (pbBlock pb))) path.

Fixpoint untilOnPath (path : list processedBlock) (l : list processedBlock)
  : list processedBlock :=
  match l with
  | [] => []
  | pb :: rest => if onPath path pb then [] else pb :: untilOnPath path rest
  end.

(** Modelled from the spec: [forkBlockchain]; both tips are walked up to
    their common ancestor, the blocks below the old tip are reverted tip
    first, the blocks below the new node are applied ancestor first, and the
    current pointer is set to the new node. *)
Definition forkBlockchain (tx : DB) (newNode : processedBlock)
  : DB * (list processedBlock * list processedBlock * option error) :=
  let currentNode := currentProcessedBlock tx in
  let oldPath := pathToGenesis (Z.to_nat (Height currentNode)) tx currentNode in
  let newPath := pathToGenesis (Z.to_nat (Height newNode)) tx newNode in
  let reverted := untilOnPath newPath oldPath in
  let applied := rev (untilOnPath oldPath newPath) in
  (put "BlockPath" "tip" (ID (pbBlock newNode)) tx, (reverted, applied, None)).

#[export] Instance collaborators : Collaborators := {|
  consensus.DEBUG := true;
  consensus.FutureThreshold := FutureThreshold;
  consensus.ID := ID;
  consensus.inconsistencyDetected := inconsistencyDetected;
  consensus.Unmarshal := Unmarshal;
  consensus.minimumValidChildTimestamp := minimumValidChildTimestamp;
  consensus.ValidateBlock := ValidateBlock;
  consensus.getBlockMap := getBlockMap;
  consensus.currentProcessedBlock := currentProcessedBlock;
  consensus.newChild := newChild;
  consensus.heavierThan := heavierThan;
  consensus.forkBlockchain := forkBlockchain
|}.

(** *** Blocks and consensus sets to run on *)

Definition G : Block :=
  {| ParentID := ""; Nonce := "G"; Timestamp := 0; Body := "genesis" |}.
Definition B1 : Block :=
  {| ParentID := "G"; Nonce := "B1"; Timestamp := 10; Body := "" |}.
Definition B2 : Block :=
  {| ParentID := "G"; Nonce := "B2"; Timestamp := 11; Body := "" |}.
Definition B3 : Block :=
  {| ParentID := "B2"; Nonce := "B3"; Timestamp := 12; Body := "" |}.
(** A block whose parent is in no store below. *)
Definition O : Block :=
  {| ParentID := "X"; Nonce := "O"; Timestamp := 10; Body := "" |}.
(** A block stamped 8000 seconds past the tolerance window. *)
Definition F : Block :=
  {| ParentID := "G"; Nonce := "F"; Timestamp := 19800; Body := "" |}.

Definition pbG : processedBlock :=
  {| pbBlock := G; Height := 0; ChildTarget := "target" |}.

(** The store seeded with genesis. *)
Definition db0 : DB :=
  {[ BlockMap := {[ "G" := Marshal pbG ]};
     "BlockPath" := {[ "tip" := "G" ]} ]}.

Definition cs0 : ConsensusSet :=
  {| dosBlocks := ∅; db := db0; changeLog := []; mu := Unlocked |}.

(** [cs0] after [B1] has been accepted. *)
Definition cs1 : ConsensusSet := final (AcceptBlock B1 cs0).

(** [cs0] with [O] in the DoS set. *)
Definition cs_dos : ConsensusSet :=
  {| dosBlocks := {[ "O" ]}; db := db0; changeLog := []; mu := Unlocked |}.

(** [cs_dos] with the store marked corrupted. *)
Definition cs_dos_corrupted : ConsensusSet :=
  {| dosBlocks := {[ "O" ]};
     db := <["Consistency" := {[ "Consistency" := "1" ]}]> db0;
     changeLog := []; mu := Unlocked |}.

(** A consensus set whose store has no bucket at all. *)
Definition cs_empty : ConsensusSet :=
  {| dosBlocks := ∅; db := ∅; changeLog := []; mu := Unlocked |}.

(** [cs0] with the store marked corrupted. *)
Definition cs_corrupted : ConsensusSet :=
  {| dosBlocks := ∅;
     db := <["Consistency" := {[ "Consistency" := "1" ]}]> db0;
     changeLog := []; mu := Unlocked |}.

(** *** A fork resolver that breaks the symmetry of its two lists *)

(** It reverts the current tip and applies nothing. *)
Definition asymmetricFork (tx : DB) (newNode : processedBlock)
  : DB * (list processedBlock * list processedBlock * option error) :=
  (tx, ([currentProcessedBlock tx], [], None)).

(** The stand-ins above with that resolver, in a debug build. *)
Definition asymmetric : Collaborators := {|
  consensus.DEBUG := true;
  consensus.FutureThreshold := FutureThreshold;
  consensus.ID := ID;
  consensus.inconsistencyDetected := inconsistencyDetected;
  consensus.Unmarshal := Unmarshal;
  consensus.minimumValidChildTimestamp := minimumValidChildTimestamp;
  consensus.ValidateBlock := ValidateBlock;
  consensus.getBlockMap := getBlockMap;
  consensus.currentProcessedBlock := currentProcessedBlock;
  consensus.newChild := newChild;
  consensus.heavierThan := heavierThan;
  consensus.forkBlockchain := asymmetricFork
|}.

End mock.

End consensus.

(* ===================================================================== *)
(** * Properties *)
(* ===================================================================== *)

Import consensus.
Local Open Scope list_scope.

Ltac unfold_monad :=
  unfold View, Update, defer, try, bind, ret, fail, panic, tell, gets, modify,
    Lock, Unlock, Demote, DemotedUnlock, outcome, final, trace in *.

(** One case per exit of [validateHeader], in the order of its text. *)
Ltac header_cases :=
  unfold validateHeader; unfold_monad; cbn;
  destruct (decide _) as [Hdos|Hdos]; cbn;
  [ | destruct (_ !! BlockMap) as [blockMap|] eqn:Hbucket; cbn;
      [ destruct (blockMap !! ID _) as [known|] eqn:Hknown; cbn;
        [ | destruct (blockMap !! ParentID _) as [parentBytes|] eqn:Hparent; cbn;
            [ destruct (Unmarshal parentBytes) as [derr|parent] eqn:Hdecode; cbn;
              [ | destruct (ValidateBlock _ _ _ _) as [verr|] eqn:Hvalid; cbn ]
            | ]
        ]
      | ]
  ].

(** ** [validateHeader] only reads *)

Section HeaderFacts.

Context {C : Collaborators}.

(** The three components of a run, put back together. *)
Lemma run_eta {A} (x : result A * ConsensusSet * list event) :
  x = (outcome x, final x, trace x).
Proof. destruct x as [[r s] t]; reflexivity. Qed.

(** [validateHeader] leaves the consensus set as it found it. *)
Lemma validateHeader_final tx b cs :
  final (validateHeader tx b cs) = cs.
Proof. header_cases; reflexivity. Qed.

(** Of the consensus set it looks at the DoS set only, so holding the lock
    changes nothing. *)
Lemma validateHeader_dos tx b cs cs' :
  dosBlocks cs' = dosBlocks cs ->
  validateHeader tx b cs' =
  (outcome (validateHeader tx b cs), cs', trace (validateHeader tx b cs)).
Proof.
  intros Heq. unfold validateHeader at 1. unfold_monad. cbn. rewrite Heq.
  header_cases; reflexivity.
Qed.

(** It has no panic of its own. *)
Lemma validateHeader_no_panic tx b cs p :
  outcome (validateHeader tx b cs) <> Panicked p.
Proof. header_cases; discriminate. Qed.

(** It starts no goroutine, opens no transaction and notifies nobody. *)
Lemma validateHeader_trace_quiet tx b cs ev :
  In ev (trace (validateHeader tx b cs)) ->
  is_begin true ev = false /\ is_begin false ev = false /\
  is_update_subscribers ev = false /\ is_go ev = false.
Proof.
  header_cases; cbn; intros Hin;
    repeat (destruct Hin as [<-|Hin]; [auto|]); destruct Hin.
Qed.

End HeaderFacts.

(** ** [AcceptBlock], path by path *)

Section AcceptBlockPaths.

Context {C : Collaborators}.

(** The precheck finds the store inconsistent. *)
Lemma AcceptBlock_inconsistent_run b cs :
  inconsistencyDetected (db cs) = true ->
  AcceptBlock b cs =
  (Fail (errorString "inconsistent database"), set_mu Unlocked cs,
   [EvBegin false; EvInconsistencyDetected; EvRollback]).
Proof.
  intros Hinc. unfold AcceptBlock. unfold_monad. cbn. rewrite Hinc. reflexivity.
Qed.

(** [validateHeader] returns an error. *)
Lemma AcceptBlock_rejected_run b cs e :
  inconsistencyDetected (db cs) = false ->
  outcome (validateHeader (db cs) b cs) = Fail e ->
  AcceptBlock b cs =
  (Fail e, set_mu Unlocked cs,
   verification_trace b cs ++
   (if is_errFutureTimestamp e then [EvGo (GoRetryAcceptBlock b)] else []) ++
   [EvRollback]).
Proof.
  intros Hinc Hv. unfold AcceptBlock, verification_trace. unfold_monad.
  cbn -[validateHeader].
  rewrite Hinc, (validateHeader_dos _ _ cs) by reflexivity.
  unfold_monad. destruct (validateHeader (db cs) b cs) as [[r s] t].
  cbn in Hv |- *. subst r.
  destruct (is_errFutureTimestamp e); cbn;
    rewrite <- ?app_assoc, ?app_nil_r; reflexivity.
Qed.

Lemma AcceptBlock_validated_run b cs :
  inconsistencyDetected (db cs) = false ->
  outcome (validateHeader (db cs) b cs) = Ok tt ->
  AcceptBlock b cs = insertion_run b cs.
Proof.
  intros Hinc Hv. unfold AcceptBlock, insertion_run, addBlockToTree, verification_trace.
  unfold_monad. cbn -[validateHeader addBlockToTree_fn].
  rewrite Hinc, (validateHeader_dos _ _ cs) by reflexivity.
  unfold_monad. destruct (validateHeader (db cs) b cs) as [[r s] t].
  cbn in Hv |- *. subst r. cbn.
  destruct (addBlockToTree_fn b (db cs)) as [[[[nonExt reverted] applied]|e|p] tx']; cbn;
    rewrite <- ?app_assoc; cbn; try reflexivity.
  destruct nonExt; cbn; rewrite <- ?app_assoc; cbn; [reflexivity|].
  destruct DEBUG, applied, reverted; cbn; rewrite <- ?app_assoc; reflexivity.
Qed.

(** [validateHeader] returns nil, an error, or nothing else. *)
Lemma AcceptBlock_cases b cs :
  (inconsistencyDetected (db cs) = true) \/
  (inconsistencyDetected (db cs) = false /\
   exists e, outcome (validateHeader (db cs) b cs) = Fail e) \/
  (inconsistencyDetected (db cs) = false /\
   outcome (validateHeader (db cs) b cs) = Ok tt).
Proof.
  destruct (inconsistencyDetected (db cs)); [left; reflexivity | right].
  destruct (outcome (validateHeader (db cs) b cs)) as [[]|e|p] eqn:Hv.
  - right; auto.
  - left; eauto.
  - exfalso; exact (validateHeader_no_panic _ _ _ _ Hv).
Qed.

End AcceptBlockPaths.

(** ** Facts shared by the theorems below *)

Section SharedFacts.

Context {C : Collaborators}.

Lemma filter_quiet (f : event -> bool) (l : list event) :
  (forall ev, In ev l -> f ev = false) -> List.filter f l = [].
Proof.
  induction l as [|ev l IH]; cbn; intros H; [reflexivity|].
  rewrite (H ev) by auto. apply IH. intros; apply H; auto.
Qed.

Lemma verification_trace_subscribers b cs :
  List.filter is_update_subscribers (verification_trace b cs) = [].
Proof.
  unfold verification_trace. cbn. apply filter_quiet.
  intros ev Hin. apply (validateHeader_trace_quiet _ _ _ _ Hin).
Qed.

Lemma verification_trace_go b cs :
  List.filter is_go (verification_trace b cs) = [].
Proof.
  unfold verification_trace. cbn. apply filter_quiet.
  intros ev Hin. apply (validateHeader_trace_quiet _ _ _ _ Hin).
Qed.


(** [AcceptBlock] never touches the DoS set. *)
Lemma AcceptBlock_dosBlocks b cs :
  dosBlocks (final (AcceptBlock b cs)) = dosBlocks cs.
Proof.
  destruct (AcceptBlock_cases b cs) as [Hinc|[[Hinc [e Hv]]|[Hinc Hv]]].
  - rewrite AcceptBlock_inconsistent_run by assumption. reflexivity.
  - rewrite (AcceptBlock_rejected_run _ _ e) by assumption. reflexivity.
  - rewrite AcceptBlock_validated_run by assumption. unfold insertion_run.
    destruct (addBlockToTree_fn b (db cs)) as [[[[[] reverted] applied]|e|p] tx'];
      try reflexivity.
    destruct DEBUG, applied, reverted; reflexivity.
Qed.

(** Unless it panics, it returns with the lock released. *)
Lemma AcceptBlock_unlocked b cs :
  (forall p, outcome (AcceptBlock b cs) <> Panicked p) ->
  mu (final (AcceptBlock b cs)) = Unlocked.
Proof.
  destruct (AcceptBlock_cases b cs) as [Hinc|[[Hinc [e Hv]]|[Hinc Hv]]].
  - rewrite AcceptBlock_inconsistent_run by assumption. reflexivity.
  - rewrite (AcceptBlock_rejected_run _ _ e) by assumption. reflexivity.
  - rewrite AcceptBlock_validated_run by assumption. unfold insertion_run.
    destruct (addBlockToTree_fn b (db cs)) as [[[[[] reverted] applied]|e|p] tx'];
      try reflexivity.
    + destruct DEBUG, applied, reverted; reflexivity.
    + intros H. exfalso. exact (H p eq_refl).
Qed.

(** Whatever the block and the consensus set, the call opens a read-only
    transaction and runs the precheck in it before anything else. *)
Lemma AcceptBlock_trace_head b cs :
  exists rest,
    trace (AcceptBlock b cs) = EvBegin false :: EvInconsistencyDetected :: rest.
Proof.
  destruct (AcceptBlock_cases b cs) as [Hinc|[[Hinc [e Hv]]|[Hinc Hv]]].
  - rewrite AcceptBlock_inconsistent_run by assumption. eexists; reflexivity.
  - rewrite (AcceptBlock_rejected_run _ _ e) by assumption. eexists; reflexivity.
  - rewrite AcceptBlock_validated_run by assumption. unfold insertion_run.
    destruct (addBlockToTree_fn b (db cs)) as [[[[[] reverted] applied]|e|p] tx'];
      try (eexists; reflexivity).
    destruct DEBUG, applied, reverted; eexists; reflexivity.
Qed.

(** A block that got past [validateHeader], or failed in it with anything
    but [errDoSBlock], is not in the DoS set. *)
Lemma validateHeader_passed_dos tx b cs :
  outcome (validateHeader tx b cs) <> Fail errDoSBlock ->
  ID b ∉ dosBlocks cs.
Proof.
  intros Hv Hin. apply Hv. unfold validateHeader. unfold_monad. cbn.
  destruct (decide _) as [|Hn]; [reflexivity | contradiction].
Qed.

(** [time.Duration(x)] of a [uint64] is [x] read as a signed number. *)
Lemma int64_uint64 z : int64 (uint64 z) = int64 z.
Proof.
  unfold int64, uint64. rewrite Zplus_mod_idemp_l. reflexivity.
Qed.

Lemma int64_small z : - 2 ^ 63 <= z < 2 ^ 63 -> int64 z = z.
Proof.
  intros H. unfold int64. rewrite Z.mod_small; lia.
Qed.

End SharedFacts.

(** ** The version utility *)

Lemma IsVersion_loop_Forall (components : list string) :
  build.IsVersion_loop components = true <->
  Forall (fun n => exists k, build.Atoi n = Some k) components.
Proof.
  induction components as [|n rest IH]; cbn [build.IsVersion_loop].
  - split; [constructor | reflexivity].
  - destruct (build.Atoi n) as [k|] eqn:Hn.
    + rewrite IH. split.
      * intros Hrest. constructor; [exists k; exact Hn | exact Hrest].
      * intros Hall. inversion Hall; assumption.
    + split; [discriminate |].
      intros Hall. inversion Hall as [|? ? [k Hk] ?]. congruence.
Qed.

(** C10: [IsVersion] returns true exactly when every dot-separated component
    of its argument is accepted by [strconv.Atoi]; so a signed component
    passes ([IsVersion "-1.2"] is true) and the empty string, which splits
    into one empty component that [Atoi] rejects, does not. *)
Theorem IsVersion_all_components_parse :
  (forall str, build.IsVersion str = true <-> build.all_components_parse str) /\
  build.IsVersion "-1.2" = true /\
  build.IsVersion "" = false /\
  build.Split "" "." = [""%string] /\
  build.Atoi "" = None.
Proof.
  split; [| repeat split; reflexivity].
  intros str. unfold build.IsVersion, build.all_components_parse.
  apply IsVersion_loop_Forall.
Qed.

(** ** Header validation *)

Section HeaderValidation.

Context {C : Collaborators}.

(** C2: [validateHeader] makes its checks in one fixed order, and a check
    that fails is the last one made: the DoS set first ([errDoSBlock]), then
    the store's record of the block itself ([ErrBlockKnown], or
    [errNoBlockMap] when the store has no block bucket), then the parent
    ([errOrphan]), then the decoding of the parent's record, then the
    minimum timestamp, and last the block validator, whose answer is the
    result. *)
Theorem validateHeader_fixed_order (tx : DB) (b : Block) (cs : ConsensusSet) :
  let run := validateHeader tx b cs in
  let id := ID b in
  (id ∈ dosBlocks cs ->
     run = (Fail errDoSBlock, cs, [EvDoSLookup id])) /\
  (id ∉ dosBlocks cs -> tx !! BlockMap = None ->
     run = (Fail errNoBlockMap, cs, [EvDoSLookup id; EvBucket BlockMap])) /\
  (forall blockMap : Bucket,
     id ∉ dosBlocks cs -> tx !! BlockMap = Some blockMap ->
     is_Some (blockMap !! id) ->
     run = (Fail ErrBlockKnown, cs,
            [EvDoSLookup id; EvBucket BlockMap; EvGet id])) /\
  (forall blockMap : Bucket,
     id ∉ dosBlocks cs -> tx !! BlockMap = Some blockMap ->
     blockMap !! id = None -> blockMap !! ParentID b = None ->
     run = (Fail errOrphan, cs,
            [EvDoSLookup id; EvBucket BlockMap; EvGet id; EvGet (ParentID b)])) /\
  (forall (blockMap : Bucket) parentBytes err,
     id ∉ dosBlocks cs -> tx !! BlockMap = Some blockMap ->
     blockMap !! id = None -> blockMap !! ParentID b = Some parentBytes ->
     Unmarshal parentBytes = inl err ->
     run = (Fail err, cs,
            [EvDoSLookup id; EvBucket BlockMap; EvGet id; EvGet (ParentID b);
             EvUnmarshal parentBytes])) /\
  (forall (blockMap : Bucket) parentBytes parent,
     id ∉ dosBlocks cs -> tx !! BlockMap = Some blockMap ->
     blockMap !! id = None -> blockMap !! ParentID b = Some parentBytes ->
     Unmarshal parentBytes = inr parent ->
     run = (match ValidateBlock b (minimumValidChildTimestamp blockMap parent)
                    (ChildTarget parent) (uint64 (Height parent + 1)) with
            | Some err => Fail err
            | None => Ok tt
            end, cs, header_checks blockMap parentBytes parent b)).
Proof.
  cbn zeta. repeat split.
  - intros Hin. header_cases; try contradiction. reflexivity.
  - intros Hnin Hb. header_cases; try contradiction; try congruence.
  - intros blockMap' Hnin Hb [v Hk]. header_cases; try contradiction; try congruence.
  - intros blockMap' Hnin Hb Hk Hp. header_cases; try contradiction; try congruence.
  - intros blockMap' parentBytes' err Hnin Hb Hk Hp Hd.
    header_cases; try contradiction; try congruence.
  - intros blockMap' parentBytes' parent' Hnin Hb Hk Hp Hd.
    header_cases; try contradiction; try congruence;
      assert (blockMap' = blockMap) by congruence; subst blockMap';
      assert (parentBytes' = parentBytes) by congruence; subst parentBytes';
      assert (parent' = parent) by congruence; subst parent';
      unfold header_checks; rewrite Hvalid; reflexivity.
Qed.

End HeaderValidation.

Local Existing Instance mock.collaborators.

Ltac by_computation := vm_compute; reflexivity.
Ltac decide_by_computation :=
  match goal with
  | |- ?P => apply (@bool_decide_unpack P _); vm_compute; exact I
  end.

(** [B1] on the store seeded with genesis goes through all the checks. *)
Lemma validateHeader_fixed_order_witness :
  validateHeader mock.db0 mock.B1 mock.cs0 =
  (Ok tt, mock.cs0,
   header_checks {[ "G"%string := mock.Marshal mock.pbG ]}
     (mock.Marshal mock.pbG) mock.pbG mock.B1).
Proof.
  assert (Hnin : ID mock.B1 ∉ dosBlocks mock.cs0) by decide_by_computation.
  destruct (validateHeader_fixed_order mock.db0 mock.B1 mock.cs0)
    as (_ & _ & _ & _ & _ & Hlast).
  apply (Hlast {[ "G"%string := mock.Marshal mock.pbG ]}
           (mock.Marshal mock.pbG) mock.pbG Hnin); by_computation.
Defined.

(** ** Rejections *)

Section Rejections.

Context {C : Collaborators}.

(** C7, as the code has it: a block whose ID is in the DoS set, offered to a
    store that passes the consistency precheck, is answered [errDoSBlock]
    inside the read-only transaction [AcceptBlock] has opened, right after
    the precheck has run in it; that is the only transaction of the call, no
    read-write transaction is opened, and nothing but the lock changes. *)
Theorem AcceptBlock_dos_block (cs : ConsensusSet) (b : Block) :
  inconsistencyDetected (db cs) = false ->
  ID b ∈ dosBlocks cs ->
  AcceptBlock b cs =
  (Fail errDoSBlock, set_mu Unlocked cs,
   [EvBegin false; EvInconsistencyDetected; EvDoSLookup (ID b); EvRollback]).
Proof.
  intros Hinc Hin.
  assert (Hv : validateHeader (db cs) b cs = (Fail errDoSBlock, cs, [EvDoSLookup (ID b)])).
  { header_cases; try contradiction. reflexivity. }
  rewrite (AcceptBlock_rejected_run b cs errDoSBlock Hinc) by (rewrite Hv; reflexivity).
  unfold verification_trace. rewrite Hv. reflexivity.
Qed.

(** C6, as the code has it: a block that is not in the DoS set and not in
    the store, whose parent is not in the block bucket of a store that
    passes the precheck, is answered [errOrphan]; the store, the current
    pointer and the change log are as before. *)
Theorem AcceptBlock_orphan (cs : ConsensusSet) (b : Block) (blockMap : Bucket) :
  inconsistencyDetected (db cs) = false ->
  ID b ∉ dosBlocks cs ->
  db cs !! BlockMap = Some blockMap ->
  blockMap !! ID b = None ->
  blockMap !! ParentID b = None ->
  let run := AcceptBlock b cs in
  outcome run = Fail errOrphan /\
  final run = set_mu Unlocked cs /\
  db (final run) = db cs /\
  currentProcessedBlock (db (final run)) = currentProcessedBlock (db cs) /\
  changeLog (final run) = changeLog cs /\
  trace run = [EvBegin false; EvInconsistencyDetected; EvDoSLookup (ID b);
               EvBucket BlockMap; EvGet (ID b); EvGet (ParentID b); EvRollback].
Proof.
  rename blockMap into bm. intros Hinc Hnin Hb Hk Hp.
  assert (Hv : validateHeader (db cs) b cs =
               (Fail errOrphan, cs,
                [EvDoSLookup (ID b); EvBucket BlockMap; EvGet (ID b); EvGet (ParentID b)])).
  { header_cases; try contradiction; congruence. }
  cbn zeta.
  rewrite (AcceptBlock_rejected_run b cs errOrphan Hinc) by (rewrite Hv; reflexivity).
  unfold verification_trace. rewrite Hv. repeat split; reflexivity.
Qed.

(** C8: the consistency precheck is the first thing [AcceptBlock] does in
    its transaction, before anything of the block is looked at.  On a
    corrupted store every call, whatever the block, returns the
    inconsistency error with the lock released and nothing else changed, so
    the store stays corrupted and no later block gets further either. *)
Theorem AcceptBlock_consistency_precheck :
  (forall cs b, exists rest,
      trace (AcceptBlock b cs) = EvBegin false :: EvInconsistencyDetected :: rest) /\
  (forall cs,
      inconsistencyDetected (db cs) = true ->
      (forall b,
          AcceptBlock b cs =
          (Fail errInconsistentDatabase, set_mu Unlocked cs,
           [EvBegin false; EvInconsistencyDetected; EvRollback])) /\
      (forall bs,
          let run := AcceptBlocks bs cs in
          Forall (fun r => r = Fail errInconsistentDatabase) (fst run) /\
          length (fst run) = length bs /\
          db (snd run) = db cs /\
          dosBlocks (snd run) = dosBlocks cs /\
          changeLog (snd run) = changeLog cs)).
Proof.
  split.
  - intros cs b. apply AcceptBlock_trace_head.
  - intros cs Hinc. split.
    + intros b. apply AcceptBlock_inconsistent_run; assumption.
    + intros bs. revert cs Hinc.
      induction bs as [|b bs IH]; intros cs Hinc; cbn [AcceptBlocks].
      * repeat split; constructor.
      * rewrite (AcceptBlock_inconsistent_run b cs Hinc).
        unfold final, outcome. cbn [fst snd].
        specialize (IH (set_mu Unlocked cs) Hinc).
        destruct (AcceptBlocks bs (set_mu Unlocked cs)) as [rs cs'].
        cbn [fst snd length] in IH |- *.
        destruct IH as (Hall & Hlen & Hdb & Hdos & Hlog).
        repeat split; auto.
Qed.

End Rejections.

(** The DoS-set path on the store seeded with genesis. *)
Lemma AcceptBlock_dos_block_witness :
  AcceptBlock mock.O mock.cs_dos =
  (Fail errDoSBlock, mock.cs_dos,
   [EvBegin false; EvInconsistencyDetected; EvDoSLookup "O"; EvRollback]).
Proof.
  refine (AcceptBlock_dos_block mock.cs_dos mock.O _ _);
    [by_computation | decide_by_computation].
Defined.

(** C7 fails as stated: for a block of the DoS set [AcceptBlock] has opened
    a (read-only) store transaction before it answers, and when the store
    is marked corrupted the answer is the inconsistency error. *)
Lemma dos_block_opens_transaction :
  ID mock.O ∈ dosBlocks mock.cs_dos /\
  outcome (AcceptBlock mock.O mock.cs_dos) = Fail errDoSBlock /\
  In (EvBegin false) (trace (AcceptBlock mock.O mock.cs_dos)) /\
  ID mock.O ∈ dosBlocks mock.cs_dos_corrupted /\
  outcome (AcceptBlock mock.O mock.cs_dos_corrupted) = Fail errInconsistentDatabase /\
  errInconsistentDatabase <> errDoSBlock.
Proof.
  split; [decide_by_computation|].
  split; [by_computation|].
  split; [left; reflexivity|].
  split; [decide_by_computation|].
  split; [by_computation | discriminate].
Qed.

(** The orphan path on the store seeded with genesis. *)
Lemma AcceptBlock_orphan_witness :
  outcome (AcceptBlock mock.O mock.cs0) = Fail errOrphan /\
  final (AcceptBlock mock.O mock.cs0) = mock.cs0.
Proof.
  destruct (AcceptBlock_orphan mock.cs0 mock.O {[ "G"%string := mock.Marshal mock.pbG ]})
    as (Hout & Hfin & _);
    [by_computation | decide_by_computation | by_computation..|].
  split; [exact Hout | exact Hfin].
Defined.

(** C6 fails as stated: a block whose parent is not in the store is not
    answered [errOrphan] when it is in the DoS set, when it is itself in the
    store (genesis offered again), when the store has no block bucket, or
    when the store is marked corrupted. *)
Lemma missing_parent_not_always_orphan :
  (storedBlock (db mock.cs_dos) (ParentID mock.O) = None /\
   outcome (AcceptBlock mock.O mock.cs_dos) = Fail errDoSBlock) /\
  (storedBlock (db mock.cs0) (ParentID mock.G) = None /\
   outcome (AcceptBlock mock.G mock.cs0) = Fail ErrBlockKnown) /\
  (storedBlock (db mock.cs_empty) (ParentID mock.O) = None /\
   outcome (AcceptBlock mock.O mock.cs_empty) = Fail errNoBlockMap) /\
  (storedBlock (db mock.cs_corrupted) (ParentID mock.O) = None /\
   outcome (AcceptBlock mock.O mock.cs_corrupted) = Fail errInconsistentDatabase).
Proof.
  repeat split; by_computation.
Qed.

(** A corrupted store turns away every block of a sequence. *)
Lemma AcceptBlock_consistency_precheck_witness :
  AcceptBlocks [mock.B1; mock.B2; mock.O] mock.cs_corrupted =
  ([Fail errInconsistentDatabase; Fail errInconsistentDatabase;
    Fail errInconsistentDatabase], mock.cs_corrupted) /\
  db (snd (AcceptBlocks [mock.B1; mock.B2; mock.O] mock.cs_corrupted)) =
  db mock.cs_corrupted.
Proof.
  split; [by_computation|].
  destruct AcceptBlock_consistency_precheck as [_ Hcorrupted].
  destruct (Hcorrupted mock.cs_corrupted) as [_ Hrun]; [by_computation|].
  apply (Hrun [mock.B1; mock.B2; mock.O]).
Defined.

(** ** Insertion and the change log *)

Section Insertion.

Context {C : Collaborators}.

(** C1: a block that passes validation and whose node is not heavier than
    the current tip is stored: the read-write transaction, with what
    [newChild] wrote, is committed, [AcceptBlock] returns
    [ErrNonExtendingBlock], the change log and (as [newChild] does not move
    it) the current pointer are as before, nobody is notified and the lock is
    released. *)
Theorem AcceptBlock_non_extending (cs : ConsensusSet) (b : Block)
    (pb : option processedBlock) (lookupErr : option error)
    (tx1 : DB) (newNode : processedBlock) :
  inconsistencyDetected (db cs) = false ->
  outcome (validateHeader (db cs) b cs) = Ok tt ->
  getBlockMap (db cs) (ParentID b) = (pb, lookupErr) ->
  (DEBUG = false \/ lookupErr = None) ->
  newChild (db cs) pb b = (tx1, newNode) ->
  heavierThan newNode (currentProcessedBlock (db cs)) = false ->
  currentProcessedBlock tx1 = currentProcessedBlock (db cs) ->
  let run := AcceptBlock b cs in
  outcome run = Fail ErrNonExtendingBlock /\
  db (final run) = tx1 /\
  trace run = verification_trace b cs ++ [EvRollback; EvBegin true; EvCommit] /\
  currentProcessedBlock (db (final run)) = currentProcessedBlock (db cs) /\
  changeLog (final run) = changeLog cs /\
  dosBlocks (final run) = dosBlocks cs /\
  mu (final run) = Unlocked /\
  List.filter is_update_subscribers (trace run) = [].
Proof.
  intros Hinc Hv Hget Hdebug Hchild Hheavy Hcur. cbn zeta.
  rewrite (AcceptBlock_validated_run b cs Hinc Hv). unfold insertion_run.
  assert (Hfn : addBlockToTree_fn b (db cs) = (Ok (true, [], []), tx1)).
  { unfold addBlockToTree_fn. rewrite Hget.
    replace (if DEBUG then lookupErr else None) with (@None error)
      by (destruct Hdebug as [-> | ->]; [reflexivity | destruct DEBUG; reflexivity]).
    rewrite Hchild, Hheavy. reflexivity. }
  rewrite Hfn. unfold outcome, final, trace. cbn [fst snd].
  repeat split; try reflexivity.
  - rewrite <- app_assoc. reflexivity.
  - exact Hcur.
  - rewrite <- app_assoc, List.filter_app, verification_trace_subscribers. reflexivity.
Qed.

(** C9: when [AcceptBlock] returns nil, the change log has grown by exactly
    one entry, made of the IDs of the blocks [forkBlockchain] reverted and
    applied, and that entry has been handed to the subscribers, once, exactly
    when its applied list is not empty; when [AcceptBlock] returns an error
    ([ErrNonExtendingBlock] included) the change log is as before and no
    subscriber has been notified. *)
Theorem AcceptBlock_change_entry (cs : ConsensusSet) (b : Block) :
  let run := AcceptBlock b cs in
  match outcome run with
  | Ok _ =>
      exists tx1 newNode reverted applied,
        forkBlockchain tx1 newNode = (db (final run), (reverted, applied, None)) /\
        let ce := {| revertedBlocks := blockIDs reverted;
                     appliedBlocks := blockIDs applied |} in
        changeLog (final run) = changeLog cs ++ [ce] /\
        List.filter is_update_subscribers (trace run) =
          match appliedBlocks ce with
          | [] => []
          | _ :: _ => [EvUpdateSubscribers ce]
          end
  | Fail _ =>
      changeLog (final run) = changeLog cs /\
      List.filter is_update_subscribers (trace run) = []
  | Panicked _ => True
  end.
Proof.
  cbn zeta.
  destruct (AcceptBlock_cases b cs) as [Hinc|[[Hinc [e Hv]]|[Hinc Hv]]].
  - rewrite AcceptBlock_inconsistent_run by assumption. split; reflexivity.
  - rewrite (AcceptBlock_rejected_run _ _ e) by assumption.
    unfold outcome, final, trace. cbn [fst snd]. split; [reflexivity|].
    rewrite !List.filter_app, verification_trace_subscribers.
    destruct (is_errFutureTimestamp e); reflexivity.
  - rewrite AcceptBlock_validated_run by assumption. unfold insertion_run.
    unfold addBlockToTree_fn.
    destruct (getBlockMap (db cs) (ParentID b)) as [pb lookupErr].
    destruct (if DEBUG then lookupErr else None); [exact I|].
    destruct (newChild (db cs) pb b) as [tx1 newNode].
    destruct (negb (heavierThan newNode (currentProcessedBlock (db cs)))).
    + unfold outcome, final, trace. cbn [fst snd]. split; [reflexivity|].
      rewrite <- app_assoc, List.filter_app, verification_trace_subscribers. reflexivity.
    + destruct (forkBlockchain tx1 newNode) as [tx2 [[reverted applied] [e|]]] eqn:Hfork.
      * unfold outcome, final, trace. cbn [fst snd]. split; [reflexivity|].
        rewrite <- app_assoc, List.filter_app, verification_trace_subscribers. reflexivity.
      * assert (Hquiet : forall tail,
                  List.filter is_update_subscribers
                    ((verification_trace b cs ++ [EvRollback]) ++ tail) =
                  List.filter is_update_subscribers tail).
        { intros tail. rewrite <- app_assoc, List.filter_app, verification_trace_subscribers.
          reflexivity. }
        destruct DEBUG, applied as [|a applied], reverted as [|r reverted];
          unfold outcome, final, trace; cbn [fst snd]; try exact I;
          exists tx1, newNode; eexists; eexists;
          (split; [exact Hfork|]); cbn zeta; (split; [reflexivity|]);
          rewrite Hquiet; reflexivity.
Qed.

(** C5: the entry a successful acceptance leaves in the change log has an
    empty reverted list whenever its applied list is empty.  A debug build
    checks this before [AcceptBlock] returns nil; any build has it from a
    fork resolver that never reverts without applying. *)
Theorem AcceptBlock_symmetric_entry (cs : ConsensusSet) (b : Block) :
  DEBUG = true \/ fork_symmetric ->
  outcome (AcceptBlock b cs) = Ok tt ->
  exists ce,
    changeLog (final (AcceptBlock b cs)) = changeLog cs ++ [ce] /\
    (appliedBlocks ce = [] -> revertedBlocks ce = []).
Proof.
  intros Hsym.
  destruct (AcceptBlock_cases b cs) as [Hinc|[[Hinc [e Hv]]|[Hinc Hv]]].
  - rewrite AcceptBlock_inconsistent_run by assumption. discriminate.
  - rewrite (AcceptBlock_rejected_run _ _ e) by assumption. discriminate.
  - rewrite AcceptBlock_validated_run by assumption. unfold insertion_run.
    unfold addBlockToTree_fn.
    destruct (getBlockMap (db cs) (ParentID b)) as [pb lookupErr].
    destruct (if DEBUG then lookupErr else None); [discriminate|].
    destruct (newChild (db cs) pb b) as [tx1 newNode].
    destruct (negb (heavierThan newNode (currentProcessedBlock (db cs))));
      [discriminate|].
    destruct (forkBlockchain tx1 newNode) as [tx2 [[reverted applied] [e|]]] eqn:Hfork;
      [discriminate|].
    assert (Hempty : DEBUG = true \/ (applied = [] -> reverted = [])).
    { destruct Hsym as [Hd|Hf]; [left; exact Hd | right; eauto]. }
    destruct DEBUG eqn:Hd, applied as [|a applied], reverted as [|r reverted];
      unfold outcome, final, trace; cbn [fst snd]; try discriminate; intros _;
      eexists; (split; [reflexivity|]); cbn; intros Happlied;
      try reflexivity; try discriminate.
    destruct Hempty as [Hd'|Hf]; [discriminate | discriminate (Hf eq_refl)].
Qed.

End Insertion.

(** ** Duplicates and blocks from the future *)

Section Repeats.

Context {C : Collaborators}.

Lemma set_mu_same cs : mu cs = Unlocked -> set_mu Unlocked cs = cs.
Proof. destruct cs as [d s l m]; cbn; intros ->; reflexivity. Qed.

(** C3: a block that has been accepted (with nil or with
    [ErrNonExtendingBlock]) and is in the store afterwards is answered
    [ErrBlockKnown] when it is offered again; the second call leaves the
    consensus set exactly as the first one left it, adds nothing to the
    change log, opens no read-write transaction and notifies nobody. *)
Theorem AcceptBlock_twice (cs : ConsensusSet) (b : Block) :
  let first := AcceptBlock b cs in
  let cs1 := final first in
  let second := AcceptBlock b cs1 in
  outcome first = Ok tt \/ outcome first = Fail ErrNonExtendingBlock ->
  inconsistencyDetected (db cs1) = false ->
  is_Some (storedBlock (db cs1) (ID b)) ->
  outcome second = Fail ErrBlockKnown /\
  final second = cs1 /\
  changeLog (final second) = changeLog cs1 /\
  trace second = [EvBegin false; EvInconsistencyDetected; EvDoSLookup (ID b);
                  EvBucket BlockMap; EvGet (ID b); EvRollback].
Proof.
  cbn zeta. intros Hfirst Hinc1 Hstored.
  assert (Hsame : dosBlocks (final (AcceptBlock b cs)) = dosBlocks cs)
    by apply AcceptBlock_dosBlocks.
  assert (Hmu : mu (final (AcceptBlock b cs)) = Unlocked).
  { apply AcceptBlock_unlocked. intros p Hp.
    destruct Hfirst as [H|H]; rewrite H in Hp; discriminate. }
  assert (Hnin : ID b ∉ dosBlocks cs).
  { destruct (AcceptBlock_cases b cs) as [Hinc|[[Hinc [e Hv]]|[Hinc Hv]]].
    - rewrite AcceptBlock_inconsistent_run in Hfirst by assumption.
      destruct Hfirst; discriminate.
    - rewrite (AcceptBlock_rejected_run _ _ e) in Hfirst by assumption.
      apply (validateHeader_passed_dos (db cs)). rewrite Hv.
      destruct Hfirst as [H|H]; cbn in H; [discriminate|].
      injection H as ->. discriminate.
    - apply (validateHeader_passed_dos (db cs)). rewrite Hv. discriminate. }
  set (cs1 := final (AcceptBlock b cs)) in *.
  assert (Hv : validateHeader (db cs1) b cs1 =
               (Fail ErrBlockKnown, cs1,
                [EvDoSLookup (ID b); EvBucket BlockMap; EvGet (ID b)])).
  { unfold storedBlock in Hstored. rewrite <- Hsame in Hnin.
    header_cases; try contradiction; try reflexivity;
      rewrite ?Hknown in Hstored; destruct Hstored as [v Hsome]; discriminate. }
  rewrite (AcceptBlock_rejected_run b cs1 ErrBlockKnown Hinc1) by (rewrite Hv; reflexivity).
  unfold verification_trace. rewrite Hv.
  unfold outcome, final, trace. cbn [fst snd is_errFutureTimestamp app].
  rewrite (set_mu_same cs1 Hmu). repeat split; reflexivity.
Qed.


End Repeats.

(** ** The theorems at work on the store seeded with genesis *)

(** [B2], a sibling of the tip [B1], is stored and does not extend. *)
Lemma AcceptBlock_non_extending_witness :
  outcome (AcceptBlock mock.B2 mock.cs1) = Fail ErrNonExtendingBlock /\
  db (final (AcceptBlock mock.B2 mock.cs1)) =
    fst (mock.newChild (db mock.cs1) (Some mock.pbG) mock.B2) /\
  currentProcessedBlock (db (final (AcceptBlock mock.B2 mock.cs1))) =
    currentProcessedBlock (db mock.cs1) /\
  changeLog (final (AcceptBlock mock.B2 mock.cs1)) = changeLog mock.cs1.
Proof.
  destruct (AcceptBlock_non_extending mock.cs1 mock.B2 (Some mock.pbG) None
              (fst (mock.newChild (db mock.cs1) (Some mock.pbG) mock.B2))
              (snd (mock.newChild (db mock.cs1) (Some mock.pbG) mock.B2)))
    as (Hout & Hdb & _ & Hcur & Hlog & _);
    [by_computation | by_computation | by_computation | right; reflexivity
    | by_computation | by_computation | by_computation |].
  repeat split; assumption.
Defined.

(** [B1] offered a second time. *)
Lemma AcceptBlock_twice_witness :
  outcome (AcceptBlock mock.B1 mock.cs1) = Fail ErrBlockKnown /\
  final (AcceptBlock mock.B1 mock.cs1) = mock.cs1.
Proof.
  destruct (AcceptBlock_twice mock.cs0 mock.B1) as (Hout & Hfin & _);
    [left; by_computation | by_computation | decide_by_computation |].
  split; [exact Hout | exact Hfin].
Defined.



(** [B1] extends genesis: one entry, nothing reverted. *)
Lemma AcceptBlock_symmetric_entry_witness :
  exists ce,
    changeLog (final (AcceptBlock mock.B1 mock.cs0)) = changeLog mock.cs0 ++ [ce] /\
    (appliedBlocks ce = [] -> revertedBlocks ce = []).
Proof.
  apply (AcceptBlock_symmetric_entry mock.cs0 mock.B1);
    [left; reflexivity | by_computation].
Defined.

(** A reorganisation: with [B1] the tip, [B2] is stored without extending,
    and [B3] on top of it makes the heavier chain; the entry of that
    acceptance reverts [B1], applies [B2] and [B3], and is delivered. *)
Example AcceptBlock_reorganisation :
  let cs2 := final (AcceptBlock mock.B2 mock.cs1) in
  let run := AcceptBlock mock.B3 cs2 in
  let ce := {| revertedBlocks := ["B1"%string];
               appliedBlocks := ["B2"%string; "B3"%string] |} in
  outcome run = Ok tt /\
  changeLog (final run) = changeLog cs2 ++ [ce] /\
  List.filter is_update_subscribers (trace run) = [EvUpdateSubscribers ce] /\
  ID (pbBlock (currentProcessedBlock (db (final run)))) = "B3"%string.
Proof. cbn zeta. repeat split; by_computation. Qed.

(* ===================================================================== *)
(** * More of package [build]: [VersionCmp] *)
(* ===================================================================== *)

Section VersionOrder.

Local Open Scope Z_scope.

Lemma min_len {A B} (l : list A) (l' : list B) :
  Z.to_nat (build.min (build.len l) (build.len l')) = Nat.min (length l) (length l').
Proof.
  unfold build.min, build.len.
  destruct (Z.ltb_spec (Z.of_nat (length l)) (Z.of_nat (length l'))); lia.
Qed.

(** Dropping the heads of both lists shifts the indices by one. *)
Lemma VersionCmp_loop_shift a b aNums bNums k m :
  build.VersionCmp_loop (a :: aNums) (b :: bNums) (seq (S k) m) =
  build.VersionCmp_loop aNums bNums (seq k m).
Proof.
  revert k. induction m as [|m IH]; intros k; cbn [seq build.VersionCmp_loop nth].
  - reflexivity.
  - rewrite IH. reflexivity.
Qed.

(** The body of [VersionCmp] on the two lists of components. *)
Lemma VersionCmp_lists (aNums bNums : list string) :
  match build.VersionCmp_loop aNums bNums
          (seq 0 (Z.to_nat (build.min (build.len aNums) (build.len bNums)))) with
  | Some r => r
  | None =>
      if build.len aNums <? build.len bNums then -1
      else if build.len aNums >? build.len bNums then 1
      else 0
  end = build.lexCompare (map build.AtoiInt aNums) (map build.AtoiInt bNums).
Proof.
  revert bNums. induction aNums as [|a aNums IH]; intros [|b bNums];
    rewrite min_len; cbn [length Nat.min seq build.VersionCmp_loop map build.lexCompare nth].
  - reflexivity.
  - unfold build.len. cbn [length].
    destruct (Z.ltb_spec (Z.of_nat 0) (Z.of_nat (S (length bNums)))); [reflexivity | lia].
  - unfold build.len. cbn [length].
    destruct (Z.ltb_spec (Z.of_nat (S (length aNums))) (Z.of_nat 0)); [lia|].
    destruct (Z.gtb_spec (Z.of_nat (S (length aNums))) (Z.of_nat 0)); [reflexivity | lia].
  - destruct (build.AtoiInt a <? build.AtoiInt b); [reflexivity|].
    destruct (build.AtoiInt a >? build.AtoiInt b); [reflexivity|].
    rewrite VersionCmp_loop_shift, <- IH, min_len.
    destruct (build.VersionCmp_loop aNums bNums _); [reflexivity|].
    unfold build.len. cbn [length].
    rewrite !Nat2Z.inj_succ.
    destruct (Z.ltb_spec (Z.succ (Z.of_nat (length aNums))) (Z.succ (Z.of_nat (length bNums))));
      destruct (Z.ltb_spec (Z.of_nat (length aNums)) (Z.of_nat (length bNums)));
      try lia; try reflexivity.
    destruct (Z.gtb_spec (Z.succ (Z.of_nat (length aNums))) (Z.succ (Z.of_nat (length bNums))));
      destruct (Z.gtb_spec (Z.of_nat (length aNums)) (Z.of_nat (length bNums)));
      try lia; reflexivity.
Qed.

Lemma VersionCmp_lexCompare (a b : string) :
  build.VersionCmp a b =
  build.lexCompare (build.versionNumbers a) (build.versionNumbers b).
Proof. unfold build.VersionCmp, build.versionNumbers. apply VersionCmp_lists. Qed.

(** X1: [VersionCmp] is the lexicographic comparison of the numbers of its
    two arguments, a list that starts another one being the smaller: the
    loop over the shared indices and the comparison of the lengths after it
    compute that order. *)
Theorem VersionCmp_lexicographic (a b : string) :
  build.VersionCmp a b =
  build.lexCompare (build.versionNumbers a) (build.versionNumbers b).
Proof. unfold build.VersionCmp, build.versionNumbers. apply VersionCmp_lists. Qed.

Lemma lexCompare_range xs ys :
  build.lexCompare xs ys = -1 \/ build.lexCompare xs ys = 0 \/ build.lexCompare xs ys = 1.
Proof.
  revert ys. induction xs as [|x xs IH]; intros [|y ys]; cbn; auto.
  destruct (x <? y); auto. destruct (x >? y); auto.
Qed.

Lemma lexCompare_opp xs ys :
  build.lexCompare ys xs = - build.lexCompare xs ys.
Proof.
  revert ys. induction xs as [|x xs IH]; intros [|y ys]; cbn; try reflexivity.
  destruct (Z.ltb_spec x y), (Z.gtb_spec x y), (Z.ltb_spec y x), (Z.gtb_spec y x);
    try lia; try reflexivity. apply IH.
Qed.

Lemma lexCompare_zero xs ys :
  build.lexCompare xs ys = 0 <-> xs = ys.
Proof.
  revert ys. induction xs as [|x xs IH]; intros [|y ys]; cbn;
    try (split; [discriminate | discriminate]); try (split; reflexivity).
  destruct (Z.ltb_spec x y), (Z.gtb_spec x y); try lia;
    try (split; [discriminate | intros [= ]; lia]).
  rewrite IH. split; [intros ->; f_equal; lia | intros [= ]; assumption].
Qed.

Lemma lexCompare_trans xs ys zs :
  build.lexCompare xs ys = -1 -> build.lexCompare ys zs = -1 ->
  build.lexCompare xs zs = -1.
Proof.
  revert ys zs. induction xs as [|x xs IH]; intros [|y ys] [|z zs]; cbn;
    try discriminate; try reflexivity.
  destruct (Z.ltb_spec x y), (Z.gtb_spec x y), (Z.ltb_spec y z), (Z.gtb_spec y z),
    (Z.ltb_spec x z), (Z.gtb_spec x z); try lia; try discriminate; try reflexivity.
  apply IH.
Qed.

(** X2: [VersionCmp] returns -1, 0 or +1 and nothing else, whatever the two
    strings are. *)
Theorem VersionCmp_range (a b : string) :
  build.VersionCmp a b = -1 \/ build.VersionCmp a b = 0 \/ build.VersionCmp a b = 1.
Proof. rewrite VersionCmp_lexCompare. apply lexCompare_range. Qed.

(** X3: Swapping the arguments of [VersionCmp] negates the result, and a string
    compares equal to itself, valid version or not. *)
Theorem VersionCmp_antisymmetric (a b : string) :
  build.VersionCmp b a = - build.VersionCmp a b /\ build.VersionCmp a a = 0.
Proof.
  rewrite !VersionCmp_lexCompare. split; [apply lexCompare_opp|].
  apply lexCompare_zero. reflexivity.
Qed.

(** X4: [VersionCmp] orders consistently: older than something older than [c]
    is older than [c], and two strings that compare equal compare alike with
    every third. *)
Theorem VersionCmp_transitive (a b c : string) :
  (build.VersionCmp a b = -1 -> build.VersionCmp b c = -1 ->
   build.VersionCmp a c = -1) /\
  (build.VersionCmp a b = 0 -> build.VersionCmp a c = build.VersionCmp b c).
Proof.
  rewrite !VersionCmp_lexCompare. split.
  - apply lexCompare_trans.
  - intros H. apply lexCompare_zero in H. rewrite H. reflexivity.
Qed.

(** X5: [VersionCmp] returns 0 exactly when the two strings have the same
    numbers, component by component; the strings need not be identical, as
    a leading zero shows. *)
Theorem VersionCmp_zero_iff_same_numbers :
  (forall a b,
      build.VersionCmp a b = 0 <-> build.versionNumbers a = build.versionNumbers b) /\
  (build.VersionCmp "1.01" "1.1" = 0 /\ "1.01"%string <> "1.1"%string).
Proof.
  split.
  - intros a b. rewrite VersionCmp_lexCompare. apply lexCompare_zero.
  - split; [reflexivity | discriminate].
Qed.

End VersionOrder.

Section VersionComponents.

Local Open Scope Z_scope.

Lemma Split_nonempty s sep : build.Split s sep <> [].
Proof.
  destruct s as [|c s]; cbn; [discriminate|].
  destruct (Ascii.eqb c sep); [discriminate|].
  destruct (build.Split s sep); discriminate.
Qed.

(** Splitting distributes over a separator. *)
Lemma Split_app s1 s2 sep :
  build.Split (s1 ++ String sep s2)%string sep =
  build.Split s1 sep ++ build.Split s2 sep.
Proof.
  induction s1 as [|c s1 IH].
  - change (EmptyString ++ String sep s2)%string with (String sep s2).
    cbn [build.Split]. rewrite Ascii.eqb_refl. reflexivity.
  - change (String c s1 ++ String sep s2)%string
      with (String c (s1 ++ String sep s2)).
    cbn [build.Split]. destruct (Ascii.eqb c sep).
    + rewrite IH. reflexivity.
    + rewrite IH. destruct (build.Split s1 sep) as [|hd tl] eqn:Hs.
      * exfalso. exact (Split_nonempty _ _ Hs).
      * reflexivity.
Qed.

Lemma lexCompare_longer xs e es :
  build.lexCompare (xs ++ e :: es) xs = 1.
Proof.
  induction xs as [|x xs IH]; cbn; [reflexivity|].
  destruct (Z.ltb_spec x x); [lia|]. destruct (Z.gtb_spec x x); [lia|]. exact IH.
Qed.

(** X6: The quirk the comment of [VersionCmp] gives for "1.1.0" and "1.1" holds
    in general: a version with further components after a dot is newer than
    the version it continues, whatever follows the dot. *)
Theorem VersionCmp_longer_is_newer (b rest : string) :
  build.VersionCmp (b ++ "." ++ rest)%string b = 1 /\
  build.VersionCmp b (b ++ "." ++ rest)%string = -1.
Proof.
  assert (Hnum : exists e es,
             build.versionNumbers (b ++ "." ++ rest)%string =
             build.versionNumbers b ++ e :: es).
  { unfold build.versionNumbers.
    change ("." ++ rest)%string with (String "." rest).
    rewrite Split_app, map_app.
    destruct (build.Split rest ".") as [|hd tl] eqn:Hs.
    - exfalso. exact (Split_nonempty _ _ Hs).
    - cbn [map]. eauto. }
  destruct Hnum as (e & es & Hnum).
  assert (H1 : build.VersionCmp (b ++ "." ++ rest)%string b = 1).
  { rewrite VersionCmp_lexCompare, Hnum. apply lexCompare_longer. }
  split; [exact H1|].
  rewrite VersionCmp_lexCompare, lexCompare_opp, <- VersionCmp_lexCompare, H1.
  reflexivity.
Qed.

Lemma digitValue_range c d : build.digitValue c = Some d -> 0 <= d <= 9.
Proof.
  unfold build.digitValue.
  destruct (Z.leb_spec 48 (Z.of_nat (nat_of_ascii c)));
    destruct (Z.leb_spec (Z.of_nat (nat_of_ascii c)) 57); cbn; intros [= <-]; lia.
Qed.

Lemma parseDigits_ge s :
  forall k m, 0 <= k -> build.parseDigits k s = Some m -> k <= m.
Proof.
  induction s as [|c s IH]; intros k m Hk; cbn [build.parseDigits].
  - intros [= <-]. lia.
  - destruct (build.digitValue c) as [d|] eqn:Hd; [|discriminate].
    apply digitValue_range in Hd. intros Hm.
    apply IH in Hm; lia.
Qed.

(** The digit loops of [Atoi] as [IsVersion] sees it and of [ParseUint]
    agree as long as the number fits 64 bits. *)
Lemma ParseUint_loop_parseDigits s :
  forall n, 0 <= n <= build.maxUint64 ->
  match build.parseDigits n s with
  | Some m =>
      n <= m /\
      build.ParseUint_loop n s =
        if m <=? build.maxUint64 then (m, None)
        else (build.maxUint64, Some build.ErrRange)
  | None =>
      build.ParseUint_loop n s = (0, Some build.ErrSyntax) \/
      build.ParseUint_loop n s = (build.maxUint64, Some build.ErrRange)
  end.
Proof.
  assert (Hmax : build.maxUint64 = 18446744073709551615) by reflexivity.
  assert (Hcut : build.cutoff64 = 1844674407370955162) by reflexivity.
  induction s as [|c s IH]; intros n Hn; cbn [build.parseDigits build.ParseUint_loop].
  - split; [lia|]. destruct (Z.leb_spec n build.maxUint64); [reflexivity | lia].
  - destruct (build.digitValue c) as [d|] eqn:Hd; [|left; reflexivity].
    apply digitValue_range in Hd.
    destruct (Z.leb_spec build.cutoff64 n) as [Hc|Hc].
    { destruct (build.parseDigits (n * 10 + d) s) as [m|] eqn:Hm; [|right; reflexivity].
      apply parseDigits_ge in Hm; [|lia]. split; [lia|].
      destruct (Z.leb_spec m build.maxUint64); [lia | reflexivity]. }
    cbn zeta. destruct (Z.ltb_spec build.maxUint64 (n * 10 + d)) as [Ho|Ho].
    { destruct (build.parseDigits (n * 10 + d) s) as [m|] eqn:Hm; [|right; reflexivity].
      apply parseDigits_ge in Hm; [|lia]. split; [lia|].
      destruct (Z.leb_spec m build.maxUint64); [lia | reflexivity]. }
    specialize (IH (n * 10 + d)).
    destruct (build.parseDigits (n * 10 + d) s) as [m|]; [|apply IH; lia].
    destruct IH as [Hle Hrun]; [lia|]. split; [lia | exact Hrun].
Qed.

(** What [Atoi] and [ParseInt] do once the sign is taken off. *)
Lemma Atoi_ParseInt_signed (neg : bool) (body : string) :
  match
    match body with
    | EmptyString => None
    | _ =>
        match build.parseDigits 0 body with
        | Some n =>
            let v := if neg then - n else n in
            if (build.minInt <=? v) && (v <=? build.maxInt) then Some v else None
        | None => None
        end
    end
  with
  | Some v =>
      match build.ParseUint body with
      | (_, Some build.ErrSyntax) => (0, Some build.ErrSyntax)
      | (un, _) =>
          let cutoff := 2 ^ (build.intSize - 1) in
          if negb neg && (cutoff <=? un) then (cutoff - 1, Some build.ErrRange)
          else if neg && (cutoff <? un) then (- cutoff, Some build.ErrRange)
          else (if neg then - un else un, None)
      end = (v, None)
  | None =>
      snd match build.ParseUint body with
          | (_, Some build.ErrSyntax) => (0, Some build.ErrSyntax)
          | (un, _) =>
              let cutoff := 2 ^ (build.intSize - 1) in
              if negb neg && (cutoff <=? un) then (cutoff - 1, Some build.ErrRange)
              else if neg && (cutoff <? un) then (- cutoff, Some build.ErrRange)
              else (if neg then - un else un, None)
          end <> None
  end.
Proof.
  assert (Hmax : build.maxUint64 = 18446744073709551615) by reflexivity.
  assert (Hmaxi : build.maxInt = 9223372036854775807) by reflexivity.
  assert (Hmini : build.minInt = -9223372036854775808) by reflexivity.
  assert (Hcut : 2 ^ (build.intSize - 1) = 9223372036854775808) by reflexivity.
  destruct body as [|c body]; [cbn; discriminate|].
  unfold build.ParseUint.
  pose proof (ParseUint_loop_parseDigits (String c body) 0 ltac:(lia)) as Hloop.
  destruct (build.parseDigits 0 (String c body)) as [n|].
  - destruct Hloop as [Hn Hrun]. rewrite Hrun, Hcut, Hmaxi, Hmini. cbn zeta.
    destruct (Z.leb_spec n build.maxUint64) as [Hfit|Hfit]; rewrite Hmax in *;
      destruct neg; cbn [negb andb];
      repeat match goal with
             | |- context [Z.leb ?x ?y] => destruct (Z.leb_spec x y)
             | |- context [Z.ltb ?x ?y] => destruct (Z.ltb_spec x y)
             end; cbn [andb snd]; try lia; try reflexivity; try discriminate.
  - rewrite Hcut.
    destruct Hloop as [-> | ->]; [cbn; discriminate|]. rewrite Hmax. cbn zeta.
    destruct neg; cbn; discriminate.
Qed.

(** An [Atoi] that returns no error returns the number [IsVersion] saw
    parsed, and an [Atoi] that [IsVersion] sees fail returns an error. *)
Lemma Atoi_ParseInt (s : string) :
  match build.Atoi s with
  | Some v => build.ParseInt s = (v, None)
  | None => snd (build.ParseInt s) <> None
  end.
Proof.
  destruct s as [|c rest]; [cbn; discriminate|].
  destruct (Ascii.eqb_spec c "-") as [->|Hminus].
  { exact (Atoi_ParseInt_signed true rest). }
  destruct (Ascii.eqb_spec c "+") as [->|Hplus].
  { exact (Atoi_ParseInt_signed false rest). }
  assert (Ha : build.Atoi (String c rest) =
               match build.parseDigits 0 (String c rest) with
               | Some n =>
                   if (build.minInt <=? n) && (n <=? build.maxInt) then Some n else None
               | None => None
               end).
  { destruct c as [[] [] [] [] [] [] [] []]; try reflexivity; congruence. }
  assert (Hp : build.ParseInt (String c rest) =
               match build.ParseUint (String c rest) with
               | (_, Some build.ErrSyntax) => (0, Some build.ErrSyntax)
               | (un, _) =>
                   let cutoff := 2 ^ (build.intSize - 1) in
                   if negb false && (cutoff <=? un) then (cutoff - 1, Some build.ErrRange)
                   else if false && (cutoff <? un) then (- cutoff, Some build.ErrRange)
                   else (un, None)
               end).
  { destruct c as [[] [] [] [] [] [] [] []]; try reflexivity; congruence. }
  rewrite Ha, Hp. exact (Atoi_ParseInt_signed false (String c rest)).
Qed.

(** X7: On a string [IsVersion] accepts, [VersionCmp] drops no error: the number
    it takes for each component is the one [Atoi] parsed. *)
Theorem IsVersion_numbers_parsed (str : string) :
  build.IsVersion str = true ->
  Forall2 (fun n v => build.Atoi n = Some v /\ build.ParseInt n = (v, None))
    (build.Split str ".") (build.versionNumbers str).
Proof.
  unfold build.IsVersion, build.versionNumbers.
  induction (build.Split str ".") as [|n rest IH]; cbn [build.IsVersion_loop map].
  - constructor.
  - pose proof (Atoi_ParseInt n) as Hn.
    destruct (build.Atoi n) as [v|] eqn:Ha; [|discriminate].
    intros Hrest. constructor; [|exact (IH Hrest)].
    unfold build.AtoiInt. rewrite Hn. split; [exact Ha | reflexivity].
Qed.

End VersionComponents.

(* ===================================================================== *)
(** * More of package [consensus] *)
(* ===================================================================== *)

(** The three ways through [AcceptBlock], each with its run written out. *)
Ltac accept_paths b cs :=
  let Hinc := fresh "Hinc" in
  let Hv := fresh "Hv" in
  let e := fresh "e" in
  destruct (AcceptBlock_cases b cs) as [Hinc|[[Hinc [e Hv]]|[Hinc Hv]]];
  [ rewrite (AcceptBlock_inconsistent_run b cs Hinc)
  | rewrite (AcceptBlock_rejected_run b cs e Hinc Hv)
  | rewrite (AcceptBlock_validated_run b cs Hinc Hv); unfold insertion_run ].

(** The outcomes of the function handed to [Update], and of the sanity
    check after it. *)
Ltac insertion_paths b cs :=
  let nonExt := fresh "nonExtending" in
  let reverted := fresh "reverted" in
  let applied := fresh "applied" in
  let e := fresh "e" in
  let p := fresh "p" in
  let tx' := fresh "tx'" in
  let Hfn := fresh "Hfn" in
  let Hdebug := fresh "Hdebug" in
  destruct (addBlockToTree_fn b (db cs))
    as [[[[nonExt reverted] applied]|e|p] tx'] eqn:Hfn;
  [ destruct nonExt;
    [ | destruct DEBUG eqn:Hdebug, applied, reverted ]
  | | ].

Ltac header_event_free :=
  let ev := fresh "ev" in
  let Hev := fresh "Hev" in
  intros ev Hev; destruct ev; try discriminate Hev; reflexivity.

Section HeaderPostcondition.

Context {C : Collaborators}.

(** X8: [validateHeader] returns nil exactly when the block is not in the DoS
    set and not in the store, its parent is in the store with a record that
    decodes, and the validator accepts the block for the parent's child
    target and the height after the parent's. *)
Theorem validateHeader_nil_iff (tx : DB) (b : Block) (cs : ConsensusSet) :
  outcome (validateHeader tx b cs) = Ok tt <->
  ((ID b ∉ dosBlocks cs) /\
   (exists (blockMap : Bucket) parentBytes parent,
      tx !! BlockMap = Some blockMap /\
      blockMap !! ID b = None /\
      blockMap !! ParentID b = Some parentBytes /\
      Unmarshal parentBytes = inr parent /\
      ValidateBlock b (minimumValidChildTimestamp blockMap parent)
        (ChildTarget parent) (uint64 (Height parent + 1)) = None)).
Proof.
  split.
  - header_cases; try discriminate. intros _. split; [assumption|].
    exists blockMap, parentBytes, parent. auto.
  - intros (Hnin & bm & pbytes & par & Hb & Hk & Hp & Hd & Hval).
    header_cases; try contradiction; try congruence.
    assert (bm = blockMap) by congruence. subst bm.
    assert (pbytes = parentBytes) by congruence. subst pbytes.
    assert (par = parent) by congruence. subst par.
    rewrite Hvalid. reflexivity.
Qed.

(** Every event of [validateHeader] is a read or a call of a collaborator. *)
Lemma validateHeader_events tx b cs ev :
  In ev (trace (validateHeader tx b cs)) -> is_header_event ev = true.
Proof.
  header_cases; cbn; intros Hin;
    repeat (destruct Hin as [<-|Hin]; [reflexivity|]); destruct Hin.
Qed.

Lemma verification_trace_filter (f : event -> bool) b cs :
  (forall ev, is_header_event ev = true -> f ev = false) ->
  List.filter f (verification_trace b cs) =
  List.filter f [EvBegin false; EvInconsistencyDetected].
Proof.
  intros Hf. unfold verification_trace. rewrite List.filter_app.
  rewrite (filter_quiet f (trace (validateHeader (db cs) b cs))).
  - apply app_nil_r.
  - intros ev Hin. apply Hf. exact (validateHeader_events _ _ _ _ Hin).
Qed.

End HeaderPostcondition.

(** The genesis store lets [B1] through. *)
Lemma validateHeader_nil_iff_witness :
  (ID mock.B1 ∉ dosBlocks mock.cs0) /\
  (exists (blockMap : Bucket) parentBytes parent,
      mock.db0 !! BlockMap = Some blockMap /\
      blockMap !! ID mock.B1 = None /\
      blockMap !! ParentID mock.B1 = Some parentBytes /\
      Unmarshal parentBytes = inr parent /\
      ValidateBlock mock.B1 (minimumValidChildTimestamp blockMap parent)
        (ChildTarget parent) (uint64 (Height parent + 1)) = None).
Proof.
  apply (validateHeader_nil_iff mock.db0 mock.B1 mock.cs0). by_computation.
Defined.

Section Effects.

Context {C : Collaborators}.

(** X9: Every call of [AcceptBlock] opens exactly one read-only transaction; it
    opens a read-write transaction, one, exactly when the store passes the
    precheck and [validateHeader] returns nil; and every transaction it
    opens it ends, by a commit or a rollback. *)
Theorem AcceptBlock_transactions (cs : ConsensusSet) (b : Block) :
  let t := trace (AcceptBlock b cs) in
  List.filter (is_begin false) t = [EvBegin false] /\
  List.filter (is_begin true) t = (if verified b cs then [EvBegin true] else []) /\
  length (List.filter is_close t) = length (List.filter is_begin_any t).
Proof.
  cbn zeta. unfold verified.
  accept_paths b cs; [| | insertion_paths b cs];
    unfold trace; cbn [snd]; rewrite ?Hinc, ?Hv; cbn [negb andb];
    rewrite <- ?app_assoc, ?List.filter_app, ?length_app,
      ?verification_trace_filter by header_event_free;
    try (destruct (is_errFutureTimestamp e)); repeat split; reflexivity.
Qed.

(** X10: The block is handed to the gateway for relay exactly when
    [AcceptBlock] returns nil, and then once, under the topic
    [RelayBlock]; a block that is rejected, that does not extend, or whose
    acceptance panics is not relayed. *)
Theorem AcceptBlock_relay (cs : ConsensusSet) (b : Block) :
  let run := AcceptBlock b cs in
  List.filter is_broadcast (trace run) =
  if returned_nil (outcome run) then [EvGo (GoBroadcast "RelayBlock" b)] else [].
Proof.
  cbn zeta.
  accept_paths b cs; [| | insertion_paths b cs];
    unfold trace, outcome; cbn [fst snd returned_nil];
    rewrite <- ?app_assoc, ?List.filter_app,
      ?verification_trace_filter by header_event_free;
    try (destruct (is_errFutureTimestamp e)); reflexivity.
Qed.

(** X11: The retry goroutine is started exactly when the store passes the
    precheck and [validateHeader] itself returns [errFutureTimestamp], and
    then once, for the block of the call; no other error starts it, the same
    error coming out of [addBlockToTree] included. *)
Theorem AcceptBlock_retry (cs : ConsensusSet) (b : Block) :
  List.filter is_go_retry (trace (AcceptBlock b cs)) =
  if deferred b cs then [EvGo (GoRetryAcceptBlock b)] else [].
Proof.
  unfold deferred.
  accept_paths b cs; [| | insertion_paths b cs];
    unfold trace; cbn [snd]; rewrite ?Hinc, ?Hv; cbn [negb andb];
    rewrite <- ?app_assoc, ?List.filter_app,
      ?verification_trace_filter by header_event_free;
    try (destruct (is_errFutureTimestamp e)); reflexivity.
Qed.

(** X12: [AcceptBlock] returns, with nil or with an error, only with the lock
    released, and the panic of the sanity check releases it too, through the
    deferred [DemotedUnlock]; the panic on the error of [getBlockMap], raised
    inside [Update], leaves the lock held for writing. *)
Theorem AcceptBlock_lock (cs : ConsensusSet) (b : Block) :
  let run := AcceptBlock b cs in
  mu (final run) =
  match outcome run with
  | Panicked (PanicError _) => Locked
  | _ => Unlocked
  end.
Proof.
  cbn zeta.
  accept_paths b cs; [| | insertion_paths b cs]; try reflexivity.
  unfold outcome, final. cbn [fst snd].
  unfold addBlockToTree_fn in Hfn.
  destruct (getBlockMap (db cs) (ParentID b)) as [pb lookupErr].
  destruct (if DEBUG then lookupErr else None).
  - injection Hfn as <- _. reflexivity.
  - destruct (newChild (db cs) pb b) as [tx1 newNode].
    destruct (negb (heavierThan newNode (currentProcessedBlock (db cs))));
      [discriminate|].
    destruct (forkBlockchain tx1 newNode) as [tx2 [[rev app] [err|]]]; discriminate.
Qed.

(** X13: Whenever [AcceptBlock] returns an error other than
    [ErrNonExtendingBlock], the store and the change log are as they were
    before the call; in particular an error of [forkBlockchain] discards
    what [newChild] had written in the same transaction. *)
Theorem AcceptBlock_error_unchanged (cs : ConsensusSet) (b : Block) (err : error) :
  outcome (AcceptBlock b cs) = Fail err ->
  err <> ErrNonExtendingBlock ->
  db (final (AcceptBlock b cs)) = db cs /\
  changeLog (final (AcceptBlock b cs)) = changeLog cs.
Proof.
  accept_paths b cs; [| | insertion_paths b cs];
    unfold outcome, final; cbn [fst snd]; intros Hout Hne;
    try discriminate Hout; try (split; reflexivity).
  injection Hout as <-. contradiction.
Qed.

(** X14: In a debug build, when the fork resolver reverts blocks and applies
    none, [AcceptBlock] panics only after the damage is done: the store
    transaction is committed and the asymmetric entry is in the change log;
    no subscriber is notified and the block is not relayed. *)
Theorem AcceptBlock_sanity_panic (cs : ConsensusSet) (b : Block)
    (tx2 : DB) (r : processedBlock) (reverted : list processedBlock) :
  DEBUG = true ->
  verified b cs = true ->
  addBlockToTree_fn b (db cs) = (Ok (false, r :: reverted, []), tx2) ->
  let run := AcceptBlock b cs in
  let ce := {| revertedBlocks := blockIDs (r :: reverted); appliedBlocks := [] |} in
  outcome run = Panicked (PanicString "appliedBlocks and revertedBlocks are mismatched!") /\
  db (final run) = tx2 /\
  changeLog (final run) = changeLog cs ++ [ce] /\
  List.filter is_close (trace run) = [EvRollback; EvCommit] /\
  List.filter is_update_subscribers (trace run) = [] /\
  List.filter is_broadcast (trace run) = [].
Proof.
  intros Hdebug Hver Hfn. cbn zeta. unfold verified in Hver.
  destruct (inconsistencyDetected (db cs)) eqn:Hinc; [discriminate|].
  destruct (outcome (validateHeader (db cs) b cs)) as [[]| |] eqn:Hv; try discriminate.
  rewrite (AcceptBlock_validated_run b cs Hinc Hv). unfold insertion_run.
  rewrite Hfn, Hdebug. unfold outcome, final, trace. cbn [fst snd].
  rewrite <- ?app_assoc, ?List.filter_app,
    ?verification_trace_filter by header_event_free.
  repeat split; reflexivity.
Qed.

Lemma verification_trace_silent b cs ce :
  ~ In (EvUpdateSubscribers ce) (verification_trace b cs).
Proof.
  unfold verification_trace. intros [H|[H|H]]; try discriminate.
  apply validateHeader_events in H. discriminate.
Qed.

(** In a run that got to its commit, a notification comes after it. *)
Lemma notification_after_commit b cs ce tail :
  In (EvUpdateSubscribers ce)
    ((verification_trace b cs ++ [EvRollback]) ++ [EvBegin true; EvCommit] ++ tail) ->
  In (EvUpdateSubscribers ce) tail /\
  exists before after,
    (verification_trace b cs ++ [EvRollback]) ++ [EvBegin true; EvCommit] ++ tail =
      before ++ EvCommit :: after /\
    In (EvUpdateSubscribers ce) after /\
    ~ In (EvUpdateSubscribers ce) before.
Proof.
  intros Hin.
  assert (Htail : In (EvUpdateSubscribers ce) tail).
  { apply in_app_or in Hin. destruct Hin as [Hin|Hin].
    - apply in_app_or in Hin. destruct Hin as [Hin|[Hin|[]]]; [|discriminate].
      exfalso. exact (verification_trace_silent _ _ _ Hin).
    - destruct Hin as [H|[H|Hin]]; try discriminate. exact Hin. }
  split; [exact Htail|].
  exists ((verification_trace b cs ++ [EvRollback]) ++ [EvBegin true]), tail.
  split; [rewrite <- !app_assoc; reflexivity|]. split; [exact Htail|].
  intros Hin'. apply in_app_or in Hin'. destruct Hin' as [Hin'|[H|[]]]; [|discriminate].
  apply in_app_or in Hin'. destruct Hin' as [Hin'|[H|[]]]; [|discriminate].
  exact (verification_trace_silent _ _ _ Hin').
Qed.

(** X15: A subscriber is only ever handed an entry whose store transaction has
    already been committed and which is the last entry of the change log
    when the call is over. *)
Theorem AcceptBlock_notifies_after_commit (cs : ConsensusSet) (b : Block)
    (ce : changeEntry) :
  let run := AcceptBlock b cs in
  In (EvUpdateSubscribers ce) (trace run) ->
  (exists before after,
      trace run = before ++ EvCommit :: after /\
      In (EvUpdateSubscribers ce) after /\
      ~ In (EvUpdateSubscribers ce) before) /\
  changeLog (final run) = changeLog cs ++ [ce].
Proof.
  cbn zeta.
  accept_paths b cs; [| | insertion_paths b cs];
    unfold trace, final; cbn [fst snd]; intros Hin.
  - destruct Hin as [H|[H|[H|[]]]]; discriminate.
  - exfalso. apply in_app_or in Hin. destruct Hin as [Hin|Hin].
    + exact (verification_trace_silent _ _ _ Hin).
    + destruct (is_errFutureTimestamp e); cbn in Hin;
        repeat (destruct Hin as [H|Hin]; [discriminate H|]); exact Hin.
  - exfalso. apply in_app_or in Hin. destruct Hin as [Hin|[H|[H|[]]]]; try discriminate.
    apply in_app_or in Hin. destruct Hin as [Hin|[H|[]]]; try discriminate.
    exact (verification_trace_silent _ _ _ Hin).
  - apply notification_after_commit in Hin. destruct Hin as [[H|[]] _]. discriminate.
  - apply notification_after_commit in Hin. destruct Hin as [[] _].
  - apply notification_after_commit in Hin. destruct Hin as [Htail Hsplit].
    destruct Htail as [H|[H|[]]]; [|discriminate]. injection H as <-.
    split; [exact Hsplit | reflexivity].
  - apply notification_after_commit in Hin. destruct Hin as [Htail Hsplit].
    destruct Htail as [H|[H|[]]]; [|discriminate]. injection H as <-.
    split; [exact Hsplit | reflexivity].
  - apply notification_after_commit in Hin. destruct Hin as [[H|[]] _]. discriminate.
  - apply notification_after_commit in Hin. destruct Hin as [[H|[]] _]. discriminate.
  - apply notification_after_commit in Hin. destruct Hin as [Htail Hsplit].
    destruct Htail as [H|[H|[]]]; [|discriminate]. injection H as <-.
    split; [exact Hsplit | reflexivity].
  - apply notification_after_commit in Hin. destruct Hin as [Htail Hsplit].
    destruct Htail as [H|[H|[]]]; [|discriminate]. injection H as <-.
    split; [exact Hsplit | reflexivity].
  - exfalso. apply in_app_or in Hin. destruct Hin as [Hin|[H|[H|[]]]]; try discriminate.
    apply in_app_or in Hin. destruct Hin as [Hin|[H|[]]]; try discriminate.
    exact (verification_trace_silent _ _ _ Hin).
  - exfalso. apply in_app_or in Hin. destruct Hin as [Hin|[H|[H|[]]]]; try discriminate.
    apply in_app_or in Hin. destruct Hin as [Hin|[H|[]]]; try discriminate.
    exact (verification_trace_silent _ _ _ Hin).
Qed.

End Effects.

Section Sequences.

Context {C : Collaborators}.

(** The lock is taken first, so the state the lock was in does not matter. *)
Lemma AcceptBlock_set_mu b cs s :
  AcceptBlock b (set_mu s cs) = AcceptBlock b cs.
Proof. reflexivity. Qed.

(** X16: On a store that has its block bucket, a block stopped in the
    verification phase, by the precheck or by an error of [validateHeader]
    other than [errFutureTimestamp], starts no goroutine and leaves the
    consensus set as it was: any block offered next is treated as if the
    stopped one had never been offered. *)
Theorem AcceptBlock_rejected_then (cs : ConsensusSet) (b1 b2 : Block) :
  is_Some (db cs !! BlockMap) ->
  verified b1 cs = false ->
  deferred b1 cs = false ->
  List.filter is_go (trace (AcceptBlock b1 cs)) = [] /\
  AcceptBlock b2 (final (AcceptBlock b1 cs)) = AcceptBlock b2 cs.
Proof.
  unfold verified, deferred. intros _ Hver Hdef.
  accept_paths b1 cs; unfold final, trace; cbn [fst snd].
  - split; [reflexivity | apply AcceptBlock_set_mu].
  - rewrite Hinc, Hv in Hdef. cbn [negb andb] in Hdef. rewrite Hdef.
    split; [|apply AcceptBlock_set_mu].
    rewrite !List.filter_app, verification_trace_go. reflexivity.
  - rewrite Hinc, Hv in Hver. discriminate.
Qed.

(** One step of a sequence: the change log is kept, and grows by one entry
    exactly when the call returns nil. *)
Lemma AcceptBlock_log_step b cs :
  has_panicked (outcome (AcceptBlock b cs)) = false ->
  exists entries,
    changeLog (final (AcceptBlock b cs)) = changeLog cs ++ entries /\
    length entries = if returned_nil (outcome (AcceptBlock b cs)) then 1%nat else 0%nat.
Proof.
  accept_paths b cs; [| | insertion_paths b cs];
    unfold outcome, final; cbn [fst snd has_panicked returned_nil]; intros Hp;
    try discriminate Hp;
    try (exists []; rewrite app_nil_r; split; reflexivity);
    eexists; split; reflexivity.
Qed.

(** X17: Over any sequence of calls none of which panics, the change log only
    grows at its end, and by exactly one entry for each call that returned
    nil. *)
Theorem AcceptBlocks_change_log (bs : list Block) (cs : ConsensusSet) :
  let run := AcceptBlocks bs cs in
  forallb (fun r => negb (has_panicked r)) (fst run) = true ->
  exists entries,
    changeLog (snd run) = changeLog cs ++ entries /\
    length entries = length (List.filter returned_nil (fst run)).
Proof.
  cbn zeta. revert cs. induction bs as [|b bs IH]; intros cs; cbn [AcceptBlocks].
  - intros _. exists []. rewrite app_nil_r. split; reflexivity.
  - specialize (IH (final (AcceptBlock b cs))).
    destruct (AcceptBlocks bs (final (AcceptBlock b cs))) as [rs cs'].
    cbn [fst snd forallb List.filter] in IH |- *.
    intros Hall. apply andb_prop in Hall. destruct Hall as [Hb Hrest].
    destruct (IH Hrest) as (later & Hlater & Hlen).
    destruct (AcceptBlock_log_step b cs) as (first & Hfirst & Hlen1).
    { destruct (has_panicked _); [discriminate | reflexivity]. }
    exists (first ++ later). split.
    + rewrite Hlater, Hfirst, app_assoc. reflexivity.
    + rewrite length_app, Hlen, Hlen1.
      destruct (returned_nil (outcome (AcceptBlock b cs))); reflexivity.
Qed.

Lemma int64_range z : - 2 ^ 63 <= int64 z < 2 ^ 63.
Proof.
  unfold int64. pose proof (Z.mod_pos_bound (z + 2 ^ 63) (2 ^ 64) ltac:(lia)). lia.
Qed.

(** X18: The sleep of the retry goroutine always fits a [time.Duration].  For a
    block whose timestamp is not behind the clock plus the threshold, it is
    the excess in seconds exactly when the excess is less than 2^63
    nanoseconds; a larger excess wraps around and the goroutine sleeps
    another time than the excess, possibly none. *)
Theorem retrySleep_exact_iff (b : Block) (now : Z) :
  0 <= now + FutureThreshold <= Timestamp b ->
  Timestamp b < 2 ^ 64 ->
  let excess := Timestamp b - now - FutureThreshold in
  - 2 ^ 63 <= retrySleep b now < 2 ^ 63 /\
  (retrySleep b now = excess * Second <-> excess * Second < 2 ^ 63).
Proof.
  intros Hnow Hts. cbn zeta. split; [apply int64_range|].
  assert (Hsec : Second = 1000000000) by reflexivity.
  split.
  - intros Heq. pose proof (int64_range
      (int64 (uint64 (Timestamp b - uint64 (now + FutureThreshold))) * Second)) as Hr.
    unfold retrySleep in Heq. lia.
  - intros Hsmall. unfold retrySleep. rewrite int64_uint64.
    replace (uint64 (now + FutureThreshold)) with (now + FutureThreshold)
      by (unfold uint64; rewrite Z.mod_small; lia).
    replace (Timestamp b - (now + FutureThreshold))
      with (Timestamp b - now - FutureThreshold) by lia.
    rewrite (int64_small (Timestamp b - now - FutureThreshold)) by lia.
    apply int64_small. lia.
Qed.

End Sequences.

(** ** The additional theorems at work *)

(** [O], an orphan, then [B1] on the store seeded with genesis. *)
Lemma AcceptBlock_rejected_then_witness :
  List.filter is_go (trace (AcceptBlock mock.O mock.cs0)) = [] /\
  AcceptBlock mock.B1 (final (AcceptBlock mock.O mock.cs0)) =
  AcceptBlock mock.B1 mock.cs0.
Proof.
  apply (AcceptBlock_rejected_then mock.cs0 mock.O mock.B1);
    [decide_by_computation | by_computation | by_computation].
Defined.

(** A sequence with an extension, a duplicate, an orphan, a sibling and a
    reorganisation: two calls return nil and two entries are appended. *)
Lemma AcceptBlocks_change_log_witness :
  exists entries,
    changeLog (snd (AcceptBlocks [mock.B1; mock.B1; mock.O; mock.B2; mock.B3] mock.cs0)) =
      changeLog mock.cs0 ++ entries /\
    length entries = 2%nat.
Proof.
  destruct (AcceptBlocks_change_log
              [mock.B1; mock.B1; mock.O; mock.B2; mock.B3] mock.cs0)
    as (entries & Hlog & Hlen); [by_computation|].
  exists entries. split; [exact Hlog|].
  rewrite Hlen. by_computation.
Defined.

(** [F] read by a clock at 1000: the excess of 8000 seconds is exact. *)
Lemma retrySleep_exact_iff_witness :
  retrySleep mock.F mock.now = 8000 * Second.
Proof.
  destruct (retrySleep_exact_iff mock.F mock.now) as [_ [_ Hexact]];
    [vm_compute; split; congruence | reflexivity |].
  apply Hexact. reflexivity.
Defined.

(** The orphan [O] leaves the genesis store and its empty log alone. *)
Lemma AcceptBlock_error_unchanged_witness :
  db (final (AcceptBlock mock.O mock.cs0)) = db mock.cs0 /\
  changeLog (final (AcceptBlock mock.O mock.cs0)) = changeLog mock.cs0.
Proof.
  apply (AcceptBlock_error_unchanged mock.cs0 mock.O errOrphan);
    [by_computation | discriminate].
Defined.

(** With the resolver that reverts without applying, [B1] on genesis. *)
Lemma AcceptBlock_sanity_panic_witness :
  outcome (@AcceptBlock mock.asymmetric mock.B1 mock.cs0) =
    Panicked (PanicString "appliedBlocks and revertedBlocks are mismatched!") /\
  changeLog (final (@AcceptBlock mock.asymmetric mock.B1 mock.cs0)) =
    [{| revertedBlocks := ["G"%string]; appliedBlocks := [] |}].
Proof.
  destruct (@AcceptBlock_sanity_panic mock.asymmetric mock.cs0 mock.B1
              (fst (mock.newChild mock.db0 (Some mock.pbG) mock.B1))
              mock.pbG [])
    as (Hout & _ & Hlog & _);
    [reflexivity | by_computation | by_computation |].
  split; [exact Hout | exact Hlog].
Defined.

(** The entry of [B1] on genesis is delivered after the commit. *)
Lemma AcceptBlock_notifies_after_commit_witness :
  changeLog (final (AcceptBlock mock.B1 mock.cs0)) =
  changeLog mock.cs0 ++ [{| revertedBlocks := []; appliedBlocks := ["B1"%string] |}].
Proof.
  apply (AcceptBlock_notifies_after_commit mock.cs0 mock.B1
           {| revertedBlocks := []; appliedBlocks := ["B1"%string] |}).
  vm_compute. do 12 right. left. reflexivity.
Defined.

(** Three releases in a row. *)
Lemma VersionCmp_transitive_witness :
  build.VersionCmp "0.3.9" "0.4.0.1" = -1.
Proof.
  destruct (VersionCmp_transitive "0.3.9" "0.4.0" "0.4.0.1") as [Hlt _].
  apply Hlt; reflexivity.
Defined.

(** The version of siad. *)
Lemma IsVersion_numbers_parsed_witness :
  Forall2 (fun n v => build.Atoi n = Some v /\ build.ParseInt n = (v, None))
    (build.Split build.Version ".") (build.versionNumbers build.Version).
Proof.
  apply (IsVersion_numbers_parsed build.Version). reflexivity.
Defined.
